(** * dicedb-go client: connection lifecycle, reconnection and watch bridge

    A shallow embedding of [main.go] (package [dicedb]) together with the
    properties of its reconnect protocol.

    The client is sequential Go code over three external collaborators: the
    TCP transport ([net.DialTimeout], [net.Conn.Close]), the frame codec
    ([ironhawk.Write], [ironhawk.Read]) and the identifier generator
    ([uuid.New]).  They are modelled by a deterministic environment [Net]
    whose answers may depend on the whole history of events so far; every
    call of the client on a collaborator appends one [Event] to the [log] of
    the [World].  The [Client] struct is passed explicitly: a method with a
    pointer receiver takes the struct and returns its new contents. *)

From Stdlib Require Import List String Ascii Bool Arith ZArith NArith Lia.
Import ListNotations.
Local Open Scope string_scope.
Local Open Scope list_scope.

(** ** Go strings *)

(** [strings.Contains(s, substr)]: [substr] occurs in [s] at some offset. *)
Fixpoint Contains (s substr : string) : bool :=
  String.prefix substr s ||
  match s with
  | EmptyString => false
  | String _ s' => Contains s' substr
  end.

(** Byte value of a character. *)
Definition byte (a : ascii) : N := N_of_ascii a.

(** The one-byte white space of [strings.TrimSpace]'s table [asciiSpace]:
    tab, line feed, vertical tab, form feed, carriage return, space. *)
Definition asciiSpace (a : ascii) : bool :=
  let n := byte a in
  ((9 <=? n) && (n <=? 13) || (n =? 32))%N.

(** Two-byte UTF-8 encodings of white space: U+0085 and U+00A0. *)
Definition space2 (a b : ascii) : bool :=
  ((byte a =? 194) && ((byte b =? 133) || (byte b =? 160)))%N.

(** Three-byte UTF-8 encodings of white space: U+1680, U+2000..U+200A,
    U+2028, U+2029, U+202F, U+205F and U+3000. *)
Definition space3 (a b c : ascii) : bool :=
  let x := byte a in
  let y := byte b in
  let z := byte c in
  ((x =? 225) && (y =? 154) && (z =? 128)
   || (x =? 226) && (y =? 128) &&
      ((128 <=? z) && (z <=? 138) || (z =? 168) || (z =? 169) || (z =? 175))
   || (x =? 226) && (y =? 129) && (z =? 159)
   || (x =? 227) && (y =? 128) && (z =? 128))%N.

(** Strips white-space runes from the front of a byte sequence; [sp2] and
    [sp3] recognise the two- and three-byte runes in reading order. *)
Fixpoint trimFront (sp2 : ascii -> ascii -> bool)
                   (sp3 : ascii -> ascii -> ascii -> bool)
                   (s : list ascii) : list ascii :=
  match s with
  | [] => []
  | a :: s1 =>
      if asciiSpace a then trimFront sp2 sp3 s1
      else
        match s1 with
        | [] => s
        | b :: s2 =>
            if sp2 a b then trimFront sp2 sp3 s2
            else
              match s2 with
              | [] => s
              | c :: s3 => if sp3 a b c then trimFront sp2 sp3 s3 else s
              end
        end
  end.

Definition TrimLeftSpace (s : list ascii) : list ascii :=
  trimFront space2 space3 s.

(** From the end the runes are met last byte first. *)
Definition TrimRightSpace (s : list ascii) : list ascii :=
  rev (trimFront (fun a b => space2 b a) (fun a b c => space3 c b a) (rev s)).

(** [strings.TrimSpace(s)]: [s] without leading and trailing white space, as
    defined by Unicode, on the UTF-8 bytes of [s]. *)
Definition TrimSpace (s : string) : string :=
  string_of_list_ascii
    (TrimRightSpace (TrimLeftSpace (list_ascii_of_string s))).

(** [strings.Split(s, sep)] for a separator of one byte, which is what
    [FireString] passes: [s] is cut at every occurrence of [sep]; the pieces
    between two adjacent separators, before a leading one and after a
    trailing one are empty strings, and [Split "" sep] is [[""]]. *)
Fixpoint Split (s : string) (sep : ascii) : list string :=
  match s with
  | EmptyString => [EmptyString]
  | String a s' =>
      if Ascii.eqb a sep then EmptyString :: Split s' sep
      else
        match Split s' sep with
        | t :: ts => String a t :: ts
        | [] => [String a EmptyString]
        end
  end.

(** [strings.Join(elems, sep)]. *)
Fixpoint Join (elems : list string) (sep : string) : string :=
  match elems with
  | [] => EmptyString
  | [t] => t
  | t :: ts => t ++ sep ++ Join ts sep
  end.

(** The space character, the separator of [FireString]. *)
Definition SP : ascii := " "%char.

(** ** The wording of the specification: white-space separated tokens *)

(** Number of bytes of the white-space rune at the head of [s], 0 if there
    is none. *)
Definition widthFront (sp2 : ascii -> ascii -> bool)
                      (sp3 : ascii -> ascii -> ascii -> bool)
                      (s : list ascii) : nat :=
  match s with
  | [] => 0
  | a :: s1 =>
      if asciiSpace a then 1
      else
        match s1 with
        | [] => 0
        | b :: s2 =>
            if sp2 a b then 2
            else
              match s2 with
              | [] => 0
              | c :: _ => if sp3 a b c then 3 else 0
              end
        end
  end.

Definition spaceWidth (s : list ascii) : nat := widthFront space2 space3 s.

(** The same for the rune at the end of [s]. *)
Definition spaceWidthEnd (s : list ascii) : nat :=
  widthFront (fun a b => space2 b a) (fun a b c => space3 c b a) (rev s).

(** Scanner of [Fields_spec]: [cur] is the current token, reversed;
    [skip] bytes of a white-space rune are still to be dropped. *)
Fixpoint fieldsScan (s : list ascii) (skip : nat) (cur : list ascii)
  : list string :=
  let flush (rest : list string) :=
    match cur with
    | [] => rest
    | _ => string_of_list_ascii (rev cur) :: rest
    end in
  match s with
  | [] => flush []
  | a :: s' =>
      match skip with
      | S k => fieldsScan s' k cur
      | O =>
          match spaceWidth s with
          | O => fieldsScan s' 0 (a :: cur)
          | S k => flush (fieldsScan s' k [])
          end
      end
  end.

(** The white-space separated tokens of [s], in order: the maximal runs of
    bytes that are not part of a white-space rune. *)
Definition Fields_spec (s : string) : list string :=
  fieldsScan (list_ascii_of_string s) 0 [].


(** ** Data model *)

(** Handles of physical connections ([net.Conn] values) and of channels. *)
Definition Conn := nat.
Definition Chan := nat.

(** Modelled from the spec: the declaration of [wire.Result] and of its
    status enumeration is not part of the sources at hand; a Result is a
    status, [OK] or [ERR], and a message. *)
Inductive wire_Status := Status_OK | Status_ERR.

Record Result := mkResult { Status : wire_Status; Message : string }.

(** [wire.Command]: a name and its ordered arguments. *)
Record Command := mkCommand { Cmd : string; Args : list string }.

(** The struct [Client]; a [nil] connection or channel is [None]. *)
Record Client := mkClient {
  id : string;
  conn : option Conn;
  watchConn : option Conn;
  watchCh : option Chan;
  host : string;
  port : Z
}.

(** The call site of [newConn]: [NewClient] dials the command connection,
    [WatchCh] the watch connection.  It is recorded in the log only. *)
Inductive Role := RCommand | RWatch.

(** What the client does to the outside, one event per call. *)
Inductive Event :=
| EvDial (r : Role) (h : string) (p : Z) (res : Conn + string)
| EvWrite (co : Conn) (cmd : Command) (err : option string)
| EvRead (co : Conn) (res : Result + string)
| EvClose (co : Conn)
| EvLock
| EvUnlock
| EvPrintln (s : string)
| EvUUID (s : string)
| EvMakeChan (q : Chan)
| EvGoWatch (q : Chan)
| EvSend (q : Chan) (r : option Result).

(** The environment: the answer of each collaborator as a function of the
    events so far (most recent first).  A failure is the text of the Go
    error ([err.Error()]). *)
Record Net := mkNet {
  net_dial : list Event -> string -> Z -> option string;
  net_write : list Event -> Conn -> Command -> option string;
  net_read : list Event -> Conn -> Result + string;
  net_uuid : list Event -> string
}.

(** The state outside the [Client] struct: the log (most recent event
    first), the package variable [mu], and the supply of fresh handles. *)
Record World := mkWorld {
  log : list Event;
  mu : bool;
  next_conn : Conn;
  next_chan : Chan
}.

Definition emit (e : Event) (w : World) : World :=
  mkWorld (e :: log w) (mu w) (next_conn w) (next_chan w).

(** ** Outcomes of a call *)

(** A call returns ([Done]), panics, blocks for ever ([Hang]: [mu] locked
    again by its holder, a send on a [nil] channel), or is cut by the bound
    on the depth of the recursion of [Fire] and of the loop of [watch]. *)
Inductive Res (A : Type) :=
| Done (a : A) (w : World)
| Panic (msg : string) (w : World)
| Hang (w : World)
| OutOfFuel.

Arguments Done {A} a w.
Arguments Panic {A} msg w.
Arguments Hang {A} w.
Arguments OutOfFuel {A}.

Definition M (A : Type) := World -> Res A.

Definition ret {A} (a : A) : M A := fun w => Done a w.

Definition bind {A B} (m : M A) (k : A -> M B) : M B :=
  fun w =>
    match m w with
    | Done a w' => k a w'
    | Panic msg w' => Panic msg w'
    | Hang w' => Hang w'
    | OutOfFuel => OutOfFuel
    end.

Notation "x <- m ;; k" := (bind m (fun x => k))
  (at level 61, m at next level, right associativity).
Notation "m ;;; k" := (bind m (fun _ => k))
  (at level 61, right associativity).

(** ** The collaborators *)

(** [fmt.Println]. *)
Definition Println (s : string) : M unit :=
  fun w => Done tt (emit (EvPrintln s) w).

(** [uuid.New().String()]. *)
Definition uuid_New (net : Net) : M string :=
  fun w => let s := net_uuid net (log w) in Done s (emit (EvUUID s) w).

(** [co.Close()]; its error is dropped by every caller. *)
Definition Close (co : Conn) : M unit :=
  fun w => Done tt (emit (EvClose co) w).

Definition locked (w : World) : World :=
  mkWorld (EvLock :: log w) true (next_conn w) (next_chan w).

(** [mu.Lock()]: [sync.Mutex] is not reentrant. *)
Definition Lock : M unit :=
  fun w => if mu w then Hang w else Done tt (locked w).

Definition unlock (w : World) : World :=
  mkWorld (EvUnlock :: log w) false (next_conn w) (next_chan w).

(** [defer mu.Unlock()]: runs when the body returns or panics. *)
Definition deferUnlock {A} (body : M A) : M A :=
  fun w =>
    match body w with
    | Done a w' => Done a (unlock w')
    | Panic msg w' => Panic msg (unlock w')
    | Hang w' => Hang w'
    | OutOfFuel => OutOfFuel
    end.

(** [make(chan *wire.Result)]. *)
Definition makeChan : M Chan :=
  fun w =>
    let q := next_chan w in
    Done q (mkWorld (EvMakeChan q :: log w) (mu w) (next_conn w) (S q)).

(** [ch <- r] on an unbuffered channel whose consumer takes every item; a
    send on a [nil] channel blocks for ever. *)
Definition send (ch : option Chan) (r : option Result) : M unit :=
  fun w =>
    match ch with
    | None => Hang w
    | Some q => Done tt (emit (EvSend q r) w)
    end.

(** [ironhawk.Write(co, cmd)]; a method call on a [nil] [net.Conn] panics. *)
Definition ironhawk_Write (net : Net) (co : option Conn) (cmd : Command)
  : M (option string) :=
  fun w =>
    match co with
    | None => Panic "invalid memory address or nil pointer dereference" w
    | Some k =>
        let e := net_write net (log w) k cmd in
        Done e (emit (EvWrite k cmd e) w)
    end.

(** [ironhawk.Read(co)]. *)
Definition ironhawk_Read (net : Net) (co : option Conn)
  : M (Result + string) :=
  fun w =>
    match co with
    | None => Panic "invalid memory address or nil pointer dereference" w
    | Some k =>
        let r := net_read net (log w) k in
        Done r (emit (EvRead k r) w)
    end.

(** ** The client ([main.go]) *)

(** The world after a dial that succeeds: the new connection takes the
    next handle. *)
Definition dialled (r : Role) (h : string) (p : Z) (w : World) : World :=
  mkWorld (EvDial r h p (inl (next_conn w)) :: log w)
          (mu w) (S (next_conn w)) (next_chan w).

(** [newConn]: [net.DialTimeout("tcp", host:port, 5s)]. *)
Definition newConn (net : Net) (r : Role) (h : string) (p : Z)
  : M (Conn + string) :=
  fun w =>
    match net_dial net (log w) h p with
    | Some e => Done (inr e) (emit (EvDial r h p (inr e)) w)
    | None => Done (inl (next_conn w)) (dialled r h p w)
    end.

(** The type [option]: a function that updates the struct in place. *)
Definition option_ := Client -> Client.

Definition setID (s : string) (c : Client) : Client :=
  mkClient s (conn c) (watchConn c) (watchCh c) (host c) (port c).

Definition WithID (s : string) : option_ := setID s.

(** [io.EOF.Error()] and [syscall.EPIPE.Error()]. *)
Definition io_EOF : string := "EOF".
Definition syscall_EPIPE : string := "broken pipe".

(** The test of [checkAndReconnect]. *)
Definition recoverable (err : string) : bool :=
  String.eqb err io_EOF || Contains err syscall_EPIPE.

(** The body of [c.fire(cmd, co)]. *)
Definition fire (net : Net) (cmd : Command) (co : option Conn) : M Result :=
  e <- ironhawk_Write net co cmd ;;
  match e with
  | Some msg => ret (mkResult Status_ERR msg)
  | None =>
      r <- ironhawk_Read net co ;;
      match r with
      | inr msg => ret (mkResult Status_ERR msg)
      | inl resp => ret resp
      end
  end.

Definition isERR (r : Result) : bool :=
  match Status r with Status_ERR => true | Status_OK => false end.

Definition handshake (ident role : string) : Command :=
  mkCommand "HANDSHAKE" [ident; role].

Definition handshakeError (resp : Result) : string :=
  "could not complete the handshake: " ++ Message resp.

(** [Fire], [checkAndReconnect], [getOrCreateClient] and [NewClient] call
    one another; the three last take the [Fire] they call as [F]. *)
Section Reconnect.

Variable net : Net.
Variable F : Command -> Client -> M (Result * Client).

(** The struct [NewClient] builds before the handshake. *)
Definition freshClient (k : Conn) (h : string) (p : Z) (opts : list option_)
  : M Client :=
  let client :=
    fold_left (fun c (opt : option_) => opt c) opts
              (mkClient "" (Some k) None None h p) in
  if String.eqb (id client) "" then
    u <- uuid_New net ;; ret (setID u client)
  else ret client.

Definition NewClient_ (h : string) (p : Z) (opts : list option_)
  : M (Client + string) :=
  r <- newConn net RCommand h p ;;
  match r with
  | inr err => ret (inr err)
  | inl k =>
      client <- freshClient k h p opts ;;
      rc <- F (handshake (id client) "command") client ;;
      let (resp, client') := rc in
      if isERR resp then ret (inr (handshakeError resp))
      else ret (inl client')
  end.

(** [c] is a pointer: [None] is [nil], on which [c.host] panics. *)
Definition getOrCreateClient_ (c : option Client) : M (Client + string) :=
  Lock ;;;
  deferUnlock
    match c with
    | None => fun w =>
        Panic "invalid memory address or nil pointer dereference" w
    | Some c =>
        r <- NewClient_ (host c) (port c) [] ;;
        match r with
        | inr err => ret (inr err)
        | inl newClient =>
            match conn c with
            | Some co => Close co
            | None => ret tt
            end ;;;
            ret (inl newClient)
        end
    end.

(** Returns the flag and the contents of [*c] afterwards. *)
Definition checkAndReconnect_ (err : string) (c : Client)
  : M (bool * Client) :=
  if recoverable err then
    Println "reconnecting ..." ;;;
    r <- getOrCreateClient_ (Some c) ;;
    match r with
    | inr e => Println ("failed to reconnect. error: " ++ e) ;;;
               ret (false, c)
    | inl nc => ret (true, nc)
    end
  else ret (false, c).

End Reconnect.

(** [c.Fire(cmd)]; [fuel] bounds the depth of its recursion. *)
Fixpoint Fire (net : Net) (fuel : nat) (cmd : Command) (c : Client)
  : M (Result * Client) :=
  match fuel with
  | O => fun _ => OutOfFuel
  | S n =>
      result <- fire net cmd (conn c) ;;
      if isERR result then
        bc <- checkAndReconnect_ net (Fire net n) (Message result) c ;;
        let (again, c') := bc in
        if again then Fire net n cmd c' else ret (result, c')
      else ret (result, c)
  end.

Definition NewClient (net : Net) (fuel : nat) :=
  NewClient_ net (Fire net fuel).

Definition getOrCreateClient (net : Net) (fuel : nat) :=
  getOrCreateClient_ net (Fire net fuel).

Definition checkAndReconnect (net : Net) (fuel : nat) :=
  checkAndReconnect_ net (Fire net fuel).

(** [c.FireString(cmdStr)]; [tokens[0]] panics on an empty slice. *)
Definition FireString (net : Net) (fuel : nat) (cmdStr : string) (c : Client)
  : M (Result * Client) :=
  let cmdStr := TrimSpace cmdStr in
  let tokens := Split cmdStr SP in
  match tokens with
  | [] => fun w => Panic "index out of range [0] with length 0" w
  | cmd :: rest => Fire net fuel (mkCommand cmd rest) c
  end.

(** The wording of the specification for [FireString]: the first
    white-space separated token is the command, the others its arguments. *)
Definition FireString_spec (net : Net) (fuel : nat) (cmdStr : string)
                           (c : Client) : M (Result * Client) :=
  match Fields_spec cmdStr with
  | [] => Fire net fuel (mkCommand "" []) c
  | cmd :: rest => Fire net fuel (mkCommand cmd rest) c
  end.

Definition setWatchCh (q : option Chan) (c : Client) : Client :=
  mkClient (id c) (conn c) (watchConn c) q (host c) (port c).

Definition setWatchConn (k : option Conn) (c : Client) : Client :=
  mkClient (id c) (conn c) k (watchCh c) (host c) (port c).

(** [c.WatchCh()]: the channel and the error it returns, and [*c]. *)
Definition WatchCh (net : Net) (c : Client)
  : M ((option Chan * option string) * Client) :=
  match watchCh c with
  | Some q => ret ((Some q, None), c)
  | None =>
      q <- makeChan ;;
      let c := setWatchCh (Some q) c in
      r <- newConn net RWatch (host c) (port c) ;;
      match r with
      | inr err => ret ((None, Some err), setWatchConn None c)
      | inl k =>
          let c := setWatchConn (Some k) c in
          resp <- fire net (handshake (id c) "watch") (watchConn c) ;;
          if isERR resp then ret ((None, Some (handshakeError resp)), c)
          else
            (fun w => Done tt (emit (EvGoWatch q) w)) ;;;
            ret ((Some q, None), c)
      end
  end.

(** [c.watch()], the body of the background task; [fuel] bounds the number
    of iterations of its loop.  After a read error that is followed by a
    reconnect, [resp] is [nil]. *)
Fixpoint watch (net : Net) (fuel : nat) (c : Client) : M (unit * Client) :=
  match fuel with
  | O => fun _ => OutOfFuel
  | S n =>
      r <- ironhawk_Read net (watchConn c) ;;
      match r with
      | inr err =>
          bc <- checkAndReconnect net n err c ;;
          let (ok, c') := bc in
          if negb ok then fun w => Panic err w
          else send (watchCh c') None ;;; watch net n c'
      | inl resp =>
          send (watchCh c) (Some resp) ;;; watch net n c
      end
  end.

(** [c.Close()]. *)
Definition Client_Close (c : Client) : M unit :=
  match conn c with
  | Some co => Close co
  | None => fun w => Panic "invalid memory address or nil pointer dereference" w
  end.

(** ** Reading the log *)

(** The connections dialled for role [r] that are open after the events
    [l] (most recent first). *)
Fixpoint openConns (r : Role) (l : list Event) : list Conn :=
  match l with
  | [] => []
  | EvDial r' _ _ (inl k) :: l' =>
      match r, r' with
      | RCommand, RCommand | RWatch, RWatch => k :: openConns r l'
      | _, _ => openConns r l'
      end
  | EvClose k :: l' => remove Nat.eq_dec k (openConns r l')
  | _ :: l' => openConns r l'
  end.

(** The instants of a run are the suffixes of its log. *)
Definition instantOf (t l : list Event) : Prop := exists l', l = l' ++ t.

Definition isDial (e : Event) : bool :=
  match e with EvDial _ _ _ _ => true | _ => false end.

Definition isHandshake (e : Event) : bool :=
  match e with
  | EvWrite _ cmd _ => String.eqb (Cmd cmd) "HANDSHAKE"
  | _ => false
  end.

Definition countEv (f : Event -> bool) (l : list Event) : nat :=
  List.length (filter f l).

Definition initWorld : World := mkWorld [] false 0 0.

(** ** Environments for concrete runs *)

Definition isDialOK (e : Event) : bool :=
  match e with EvDial _ _ _ (inl _) => true | _ => false end.

Definition isReadOf (k : Conn) (e : Event) : bool :=
  match e with EvRead k' _ => Nat.eqb k k' | _ => false end.

Definition isUUID (e : Event) : bool :=
  match e with EvUUID _ => true | _ => false end.

Definition okResult (s : string) : Result := mkResult Status_OK s.
Definition errResult (s : string) : Result := mkResult Status_ERR s.

(** An environment given by scripts: [dials i] is the outcome of the dial
    after [i] successful ones, [reads k i] that of the read on connection
    [k] after [i] earlier reads on it; writes succeed; the generated
    identifiers are numbered. *)
Definition scriptedNet (dials : nat -> option string)
                       (reads : Conn -> nat -> Result + string) : Net :=
  mkNet
    (fun l _ _ => dials (countEv isDialOK l))
    (fun _ _ _ => None)
    (fun l k => reads k (countEv (isReadOf k) l))
    (fun l =>
       match countEv isUUID l with
       | O => "6ba7b810-9dad-41d1-80b4-00c04fd430c8"
       | _ => "7d444840-9dc0-41d1-b245-5ffdce74fad2"
       end).

(** Reads on connection 0 succeed [n] times and then meet the end of the
    stream; every other connection answers [OK]. *)
Definition severedAfter (n : nat) (k : Conn) (i : nat) : Result + string :=
  match k with
  | O => if Nat.ltb i n then inl (okResult "OK") else inr io_EOF
  | _ => inl (okResult "OK")
  end.

(** The server is healthy; connection 0 is severed after the handshake. *)
Definition netSevered : Net := scriptedNet (fun _ => None) (severedAfter 1).

(** As [netSevered], but the server is unreachable afterwards. *)
Definition netDown : Net :=
  scriptedNet (fun i => match i with
                        | O => None
                        | _ => Some "dial tcp: connection refused"
                        end)
              (severedAfter 1).

(** As [netSevered], but the server rejects every later handshake. *)
Definition netReject : Net :=
  scriptedNet (fun _ => None)
    (fun k i =>
       match k with
       | O => severedAfter 1 k i
       | _ => inl (errResult "ERR unauthorized")
       end).

(** The server answers the handshake and rejects the next command. *)
Definition netServerError : Net :=
  scriptedNet (fun _ => None)
    (fun _ i =>
       match i with
       | O => inl (okResult "OK")
       | _ => inl (errResult "ERR unknown command 'FOO'")
       end).

(** The server rejects the first handshake. *)
Definition netBadHandshake : Net :=
  scriptedNet (fun _ => None) (fun _ _ => inl (errResult "ERR bad identity")).

(** The server cannot be reached at all. *)
Definition netUnreachable : Net :=
  scriptedNet (fun _ => Some "dial tcp: connection refused")
              (fun _ _ => inr io_EOF).

(** Each new connection is severed at once. *)
Definition netFlapping : Net :=
  scriptedNet (fun _ => None) (fun _ _ => inr io_EOF).

(** The server answers [OK] to everything. *)
Definition netHealthy : Net :=
  scriptedNet (fun _ => None) (fun _ _ => inl (okResult "OK")).

(** The client of the concrete runs: identity ["alice"], connection 0. *)
Definition alice : Client := mkClient "alice" (Some 0) None None "localhost" 7379.

(** The world after [NewClient "localhost" 7379 (WithID "alice")] on a
    healthy server. *)
Definition aliceWorld : World :=
  mkWorld [EvRead 0 (inl (okResult "OK"));
           EvWrite 0 (handshake "alice" "command") None;
           EvDial RCommand "localhost" 7379 (inl 0)]
          false 1 0.

Definition PING : Command := mkCommand "PING" [].


Definition isDialOf (r : Role) (e : Event) : bool :=
  match e, r with
  | EvDial RCommand _ _ _, RCommand | EvDial RWatch _ _ _, RWatch => true
  | _, _ => false
  end.

(** The watch connection (connection 1) is lost after its handshake with
    the error [msg]; the server cannot be dialled a third time. *)
Definition netWatchLost (msg : string) : Net :=
  scriptedNet (fun i => match i with
                        | 0 | 1 => None
                        | _ => Some "dial tcp: connection refused"
                        end)
    (fun k i =>
       match k, i with
       | 1, S _ => inr msg
       | _, _ => inl (okResult "OK")
       end).

(** [alice] after a first [WatchCh], and the world then. *)
Definition aliceWatching : Client :=
  mkClient "alice" (Some 0) (Some 1) (Some 0) "localhost" 7379.

Definition aliceWatchWorld : World :=
  mkWorld ([EvGoWatch 0; EvRead 1 (inl (okResult "OK"));
            EvWrite 1 (handshake "alice" "watch") None;
            EvDial RWatch "localhost" 7379 (inl 1); EvMakeChan 0]
           ++ log aliceWorld)
          false 2 1.

(** The events of one reconnect cycle on top of the log [l], most recent
    first: [mu] is taken, the new connection [k] is dialled, the identifier
    [u] is generated and sent in the handshake, which [resp] answers, the
    old connection is closed and [mu] is released. *)
Definition reconnectCycle (old : option Conn) (h : string) (p : Z)
           (k : Conn) (u : string) (resp : Result) (l : list Event)
  : list Event :=
  EvUnlock ::
  match old with Some o => [EvClose o] | None => [] end ++
  EvRead k (inl resp) :: EvWrite k (handshake u "command") None ::
  EvUUID u :: EvDial RCommand h p (inl k) :: EvLock :: l.

(** The client [NewClient] builds during a reconnect of [c] started in
    [w], and the world in which it sends its handshake. *)
Definition reconnectClient (net : Net) (c : Client) (w : World) : Client :=
  mkClient (net_uuid net (log (dialled RCommand (host c) (port c) (locked w))))
           (Some (next_conn w)) None None (host c) (port c).

Definition beforeHandshake (net : Net) (c : Client) (w : World) : World :=
  let w1 := dialled RCommand (host c) (port c) (locked w) in
  emit (EvUUID (net_uuid net (log w1))) w1.

(** The claim that a role never has two open connections. *)
Definition oneConnPerRole (l : list Event) : Prop :=
  forall t r, instantOf t l -> List.length (openConns r t) <= 1.

(** [k] calls of [WatchCh] in a row, with what each returned. *)
Fixpoint WatchCh_times (net : Net) (k : nat) (c : Client)
  : M (list (option Chan * option string) * Client) :=
  match k with
  | O => ret ([], c)
  | S k' =>
      rc <- WatchCh net c ;;
      rest <- WatchCh_times net k' (snd rc) ;;
      ret (fst rc :: fst rest, snd rest)
  end.

(** ** Further readings of the log, and the loop of [watch] by rounds *)

Definition isClose (e : Event) : bool :=
  match e with EvClose _ => true | _ => false end.

Definition isGoWatch (e : Event) : bool :=
  match e with EvGoWatch _ => true | _ => false end.

(** The Results received on connection [k], oldest first. *)
Definition receivedOn (k : Conn) (l : list Event) : list Result :=
  flat_map (fun e => match e with
                     | EvRead k' (inl r) => if Nat.eqb k k' then [r] else []
                     | _ => []
                     end) (rev l).

(** The items sent on channel [q], oldest first. *)
Definition sentOn (q : Chan) (l : list Event) : list (option Result) :=
  flat_map (fun e => match e with
                     | EvSend q' r => if Nat.eqb q q' then [r] else []
                     | _ => []
                     end) (rev l).

(** The events of a task that receives the Results [rs] (oldest first) on
    connection [k] and forwards each one to channel [q] before it receives
    the next; most recent event first. *)
Fixpoint forwarded (k : Conn) (q : Chan) (rs : list Result) : list Event :=
  match rs with
  | [] => []
  | r :: rs' => forwarded k q rs' ++ [EvSend q (Some r); EvRead k (inl r)]
  end.

(** One iteration of the loop of [watch]: it ends in [Done] with the
    contents of [*c] when the loop goes round again. *)
Definition watchIter (net : Net) (fuel : nat) (c : Client) : M Client :=
  r <- ironhawk_Read net (watchConn c) ;;
  match r with
  | inr err =>
      bc <- checkAndReconnect net fuel err c ;;
      let (ok, c') := bc in
      if negb ok then fun w => Panic err w
      else send (watchCh c') None ;;; ret c'
  | inl resp => send (watchCh c) (Some resp) ;;; ret c
  end.

(** The first [k] iterations of [watch net fuel]. *)
Fixpoint watchRounds (net : Net) (fuel k : nat) (c : Client) {struct k}
  : M Client :=
  match k with
  | O => ret c
  | S k' =>
      match fuel with
      | O => fun _ => OutOfFuel
      | S n => c' <- watchIter net n c ;; watchRounds net n k' c'
      end
  end.

(** Number of bytes [a] in [s]. *)
Fixpoint countByte (a : ascii) (s : string) : nat :=
  match s with
  | EmptyString => 0
  | String b s' => (if Ascii.eqb b a then 1 else 0) + countByte a s'
  end.

(** The watch connection (connection 1) delivers three notifications after
    its handshake. *)
Definition netWatchFeed : Net :=
  scriptedNet (fun _ => None)
    (fun k i =>
       match k, i with
       | 1, 1 => inl (okResult "k1 changed")
       | 1, 2 => inl (okResult "k2 changed")
       | 1, 3 => inl (okResult "k1 deleted")
       | _, _ => inl (okResult "OK")
       end).

(** The first connection is severed before the handshake is answered; the
    server is healthy afterwards. *)
Definition netSeveredAtOnce : Net :=
  scriptedNet (fun _ => None) (severedAfter 0).

(** The watch connection (connection 1) meets the end of the stream after
    its handshake; the server is healthy. *)
Definition netWatchSevered : Net :=
  scriptedNet (fun _ => None)
    (fun k i =>
       match k, i with
       | 1, S _ => inr io_EOF
       | _, _ => inl (okResult "OK")
       end).

(** The world after [make(chan *wire.Result)]. *)
Definition chanMade (w : World) : World :=
  mkWorld (EvMakeChan (next_chan w) :: log w) (mu w) (next_conn w)
          (S (next_chan w)).

(** The server answers the first handshake; connection 0 is then severed,
    and every connection dialled later is severed before its handshake is
    answered. *)
Definition netRelapse : Net :=
  scriptedNet (fun _ => None)
    (fun k i =>
       match k with
       | O => severedAfter 1 k i
       | _ => inr io_EOF
       end).

(** The command connection (0) is healthy; the watch connection (1) is
    severed after its handshake, and every connection dialled later is
    severed before its handshake is answered. *)
Definition netWatchFlap : Net :=
  scriptedNet (fun _ => None)
    (fun k i =>
       match k, i with
       | 0, _ => inl (okResult "OK")
       | 1, 0 => inl (okResult "OK")
       | _, _ => inr io_EOF
       end).

(** * Properties *)

(** ** One exchange on a connection *)

(** What [fire] can return, and what it leaves in the world. *)
Lemma fire_Done_inv net cmd co w r w' :
  fire net cmd co w = Done r w' ->
  exists k, co = Some k /\
    ((exists e, net_write net (log w) k cmd = Some e /\
                r = mkResult Status_ERR e /\
                w' = emit (EvWrite k cmd (Some e)) w)
     \/
     (net_write net (log w) k cmd = None /\
      exists rr, rr = net_read net (EvWrite k cmd None :: log w) k /\
        w' = emit (EvRead k rr) (emit (EvWrite k cmd None) w) /\
        r = match rr with
            | inl resp => resp
            | inr msg => mkResult Status_ERR msg
            end)).
Proof.
  unfold fire, bind, ironhawk_Write, ironhawk_Read, ret.
  destruct co as [k|]; [|discriminate].
  intros H. exists k. split; [reflexivity|].
  destruct (net_write net (log w) k cmd) as [e|] eqn:Hw.
  - left. exists e. inversion H; subst. auto.
  - right. split; [reflexivity|]. simpl in H.
    eexists; split; [reflexivity|].
    destruct (net_read net (EvWrite k cmd None :: log w) k) eqn:Hr;
      inversion H; subst; auto.
Qed.

Lemma fire_mu net cmd co w r w' :
  fire net cmd co w = Done r w' -> mu w' = mu w /\ next_conn w' = next_conn w.
Proof.
  intros H. apply fire_Done_inv in H.
  destruct H as (k & _ & [(e & _ & _ & ->) | (_ & rr & _ & -> & _)]);
    simpl; auto.
Qed.

(** [fire] adds a write, and a read when the write went through. *)
Lemma fire_log net cmd co w r w' :
  fire net cmd co w = Done r w' ->
  exists evs, log w' = evs ++ log w /\
              countEv isDial evs = 0 /\ 1 <= List.length evs <= 2.
Proof.
  intros H. apply fire_Done_inv in H.
  destruct H as (k & _ & [(e & _ & _ & ->) | (_ & rr & _ & -> & _)]).
  - exists [EvWrite k cmd (Some e)]. simpl. repeat split; auto.
  - exists [EvRead k rr; EvWrite k cmd None]. simpl. repeat split; auto.
Qed.

Lemma fire_not_stuck net cmd co w :
  (forall w', fire net cmd co w <> Hang w') /\ fire net cmd co w <> OutOfFuel.
Proof.
  unfold fire, bind, ironhawk_Write, ironhawk_Read, ret.
  destruct co as [k|]; [|split; [intros w'|]; discriminate].
  destruct (net_write net (log w) k cmd);
    [split; [intros w'|]; discriminate|].
  simpl. destruct (net_read net (EvWrite k cmd None :: log w) k);
    split; try intros w'; discriminate.
Qed.

(** ** Fire while [mu] is held *)

(** A reconnect under [mu] blocks on [mu]. *)
Lemma getOrCreateClient_locked net F c w :
  mu w = true -> getOrCreateClient_ net F c w = Hang w.
Proof.
  intros H. unfold getOrCreateClient_, bind, Lock. rewrite H. reflexivity.
Qed.

Lemma checkAndReconnect_locked net F err c w b c' w' :
  mu w = true ->
  checkAndReconnect_ net F err c w = Done (b, c') w' ->
  recoverable err = false /\ b = false /\ c' = c /\ w' = w.
Proof.
  intros Hmu. unfold checkAndReconnect_.
  destruct (recoverable err).
  - unfold bind at 1. unfold Println. unfold bind at 1.
    rewrite getOrCreateClient_locked by (simpl; assumption). discriminate.
  - unfold ret. intros H. inversion H; subst. auto.
Qed.

(** So a [Fire] that returns while [mu] is held made one exchange and no
    reconnect: this is the handshake of [NewClient] inside a reconnect. *)
Lemma Fire_locked net n cmd c w r c' w' :
  mu w = true ->
  Fire net n cmd c w = Done (r, c') w' ->
  fire net cmd (conn c) w = Done r w' /\ c' = c /\
  (isERR r = false \/ recoverable (Message r) = false).
Proof.
  intros Hmu. destruct n as [|n]; simpl; [discriminate|].
  unfold bind at 1.
  destruct (fire net cmd (conn c) w) as [res w1| | |] eqn:Hf; try discriminate.
  destruct (fire_mu _ _ _ _ _ _ Hf) as [Hmu1 _]. rewrite Hmu in Hmu1.
  destruct (isERR res) eqn:He.
  - unfold bind.
    destruct (checkAndReconnect_ net (Fire net n) (Message res) c w1)
      as [[b c1] w2| | |] eqn:Hc; try discriminate.
    destruct (checkAndReconnect_locked _ _ _ _ _ _ _ _ Hmu1 Hc)
      as (Hrec & -> & -> & ->).
    unfold ret. intros H. inversion H; subst. auto.
  - unfold ret. intros H. inversion H; subst. auto.
Qed.

(** ** One reconnect cycle *)

(** A reconnect that succeeds found [mu] free, dialled once, generated a new
    identifier, made one handshake exchange on the new connection, closed
    the old connection and released [mu]; the client it returns is new in
    every field but [host] and [port]. *)
Lemma getOrCreateClient_Done_inl net n c w nc w' :
  getOrCreateClient net n (Some c) w = Done (inl nc) w' ->
  mu w = false /\
  exists resp,
    let k := next_conn w in
    let u := net_uuid net (EvDial RCommand (host c) (port c) (inl k)
                             :: EvLock :: log w) in
    nc = mkClient u (Some k) None None (host c) (port c) /\
    isERR resp = false /\
    w' = mkWorld (reconnectCycle (conn c) (host c) (port c) k u resp (log w))
                 false (S k) (next_chan w).
Proof.
  unfold getOrCreateClient, getOrCreateClient_.
  unfold bind at 1. unfold Lock.
  destruct (mu w) eqn:Hmu; [discriminate|]. intros H.
  split; [reflexivity|].
  unfold deferUnlock, NewClient_ in H.
  unfold bind at 2 in H. unfold bind at 1 in H.
  unfold newConn in H. simpl in H.
  destruct (net_dial net (EvLock :: log w) (host c) (port c)) eqn:Hd.
  { simpl in H. discriminate. }
  unfold bind at 1 in H. unfold freshClient in H. simpl in H.
  unfold bind at 2 in H. unfold uuid_New in H. simpl in H.
  unfold ret at 1 in H. unfold bind in H.
  match type of H with
  | context [Fire net n ?cmd ?cl ?wl] =>
      destruct (Fire net n cmd cl wl) as [[resp c1] w1| | |] eqn:HF;
        try discriminate
  end.
  apply Fire_locked in HF; [|reflexivity].
  destruct HF as (Hf & -> & _).
  destruct (isERR resp) eqn:He; [discriminate|].
  exists resp. simpl.
  apply fire_Done_inv in Hf.
  destruct Hf as (k & Hk & [(e & _ & -> & _) | (_ & rr & Hrr & -> & Hresp)]);
    [discriminate|].
  simpl in Hk. inversion Hk; subst k. clear Hk.
  destruct rr as [resp'|msg]; [|subst resp; discriminate].
  subst resp'.
  unfold reconnectCycle, ret, Close, unlock, emit in *.
  destruct (conn c); simpl in H; inversion H; subst; auto.
Qed.

Lemma checkAndReconnect_true_inv net n err c w c' w' :
  checkAndReconnect net n err c w = Done (true, c') w' ->
  recoverable err = true /\
  getOrCreateClient net n (Some c) (emit (EvPrintln "reconnecting ...") w)
  = Done (inl c') w'.
Proof.
  unfold checkAndReconnect, checkAndReconnect_, getOrCreateClient.
  destruct (recoverable err); [|discriminate].
  unfold bind at 1. unfold Println. unfold bind at 1.
  destruct (getOrCreateClient_ net (Fire net n) (Some c)
              (emit (EvPrintln "reconnecting ...") w))
    as [[nc|e] w1| | |]; try discriminate.
  unfold ret. intros H. inversion H; subst. auto.
Qed.

Lemma checkAndReconnect_not_recoverable net n err c w :
  recoverable err = false ->
  checkAndReconnect net n err c w = Done (false, c) w.
Proof.
  intros H. unfold checkAndReconnect, checkAndReconnect_. rewrite H.
  reflexivity.
Qed.

Lemma checkAndReconnect_failed net n err c w e w' :
  recoverable err = true ->
  getOrCreateClient net n (Some c) (emit (EvPrintln "reconnecting ...") w)
  = Done (inr e) w' ->
  checkAndReconnect net n err c w
  = Done (false, c) (emit (EvPrintln ("failed to reconnect. error: " ++ e)) w').
Proof.
  intros Hr H. unfold checkAndReconnect, checkAndReconnect_. rewrite Hr.
  unfold bind at 1. unfold Println. unfold bind at 1.
  unfold getOrCreateClient in H. rewrite H. reflexivity.
Qed.

Lemma recoverable_spec err :
  recoverable err = true <->
  err = io_EOF \/ Contains err syscall_EPIPE = true.
Proof.
  unfold recoverable. rewrite orb_true_iff, String.eqb_eq. reflexivity.
Qed.

Lemma isERR_spec r : isERR r = true <-> Status r = Status_ERR.
Proof.
  unfold isERR. destruct (Status r); split; congruence.
Qed.

Lemma countEv_app f l1 l2 : countEv f (l1 ++ l2) = countEv f l1 + countEv f l2.
Proof. unfold countEv. rewrite filter_app, length_app. reflexivity. Qed.

Lemma Fire_unfold_ERR net n cmd c w result w1 :
  fire net cmd (conn c) w = Done result w1 ->
  Status result = Status_ERR ->
  Fire net (S n) cmd c w =
  match checkAndReconnect net n (Message result) c w1 with
  | Done (true, c') w2 => Fire net n cmd c' w2
  | Done (false, c') w2 => Done (result, c') w2
  | Panic msg w2 => Panic msg w2
  | Hang w2 => Hang w2
  | OutOfFuel => OutOfFuel
  end.
Proof.
  intros Hf He. apply isERR_spec in He. simpl. unfold bind at 1.
  rewrite Hf, He. unfold bind, checkAndReconnect.
  destruct (checkAndReconnect_ net (Fire net n) (Message result) c w1)
    as [[[|] c'] w2| | |]; reflexivity.
Qed.

(** ** Fire: the reconnect policy *)

(** C3.  A [Fire] whose exchange gives an [ERR] Result with a message that
    is neither the end-of-stream text nor contains the broken-pipe text
    returns that very Result and leaves the client as it was; the world is
    the one the single exchange left: nothing was dialled, [mu] was not
    touched and no connection handle was allocated. *)
Theorem Fire_application_error_no_reconnect net n cmd c w result w1 :
  fire net cmd (conn c) w = Done result w1 ->
  Status result = Status_ERR ->
  Message result <> io_EOF ->
  Contains (Message result) syscall_EPIPE = false ->
  Fire net (S n) cmd c w = Done (result, c) w1 /\
  countEv isDial (log w1) = countEv isDial (log w) /\
  mu w1 = mu w /\ next_conn w1 = next_conn w.
Proof.
  intros Hf He Heof Hpipe.
  assert (Hr : recoverable (Message result) = false).
  { destruct (recoverable (Message result)) eqn:Hr; [|reflexivity].
    apply recoverable_spec in Hr. destruct Hr; congruence. }
  split.
  - rewrite (Fire_unfold_ERR _ _ _ _ _ _ _ Hf He).
    rewrite checkAndReconnect_not_recoverable by assumption. reflexivity.
  - destruct (fire_log _ _ _ _ _ _ Hf) as (evs & -> & Hd & _).
    rewrite countEv_app, Hd. split; [reflexivity|].
    eapply fire_mu; eassumption.
Qed.

(** The server answers [FOO] with a command error: the error comes back,
    and nothing but the exchange happened. *)
Lemma Fire_application_error_no_reconnect_witness :
  exists result w1,
    fire netServerError (mkCommand "FOO" []) (conn alice) aliceWorld
    = Done result w1 /\
    Fire netServerError 1 (mkCommand "FOO" []) alice aliceWorld
    = Done (result, alice) w1 /\
    countEv isDial (log w1) = countEv isDial (log aliceWorld) /\
    mu w1 = mu aliceWorld /\ next_conn w1 = next_conn aliceWorld.
Proof.
  do 2 eexists. split; [reflexivity|].
  apply (Fire_application_error_no_reconnect netServerError 0);
    [reflexivity | reflexivity | discriminate | reflexivity].
Defined.

(** C2.  When the exchange of [Fire] gives an [ERR] Result whose message
    is the end-of-stream text or contains the broken-pipe text, and the
    reconnect succeeds, [Fire] is the [Fire] of the same command on the
    client the reconnect installed: the caller gets what the retry returns,
    not the fault.  The reconnect made exactly one dial and exactly one
    handshake write: its events are one [reconnectCycle]. *)
Theorem Fire_retries_after_reconnect net n cmd c w result w1 c' w2 :
  fire net cmd (conn c) w = Done result w1 ->
  Status result = Status_ERR ->
  Message result = io_EOF \/ Contains (Message result) syscall_EPIPE = true ->
  checkAndReconnect net n (Message result) c w1 = Done (true, c') w2 ->
  Fire net (S n) cmd c w = Fire net n cmd c' w2 /\
  countEv isDial (log w2) = S (countEv isDial (log w1)) /\
  countEv isHandshake (log w2) = S (countEv isHandshake (log w1)) /\
  exists old k u resp,
    conn c = Some old /\ conn c' = Some k /\ Status resp = Status_OK /\
    log w2 = reconnectCycle (Some old) (host c) (port c) k u resp
               (EvPrintln "reconnecting ..." :: log w1).
Proof.
  intros Hf He _ Hc. split.
  - rewrite (Fire_unfold_ERR _ _ _ _ _ _ _ Hf He), Hc. reflexivity.
  - apply checkAndReconnect_true_inv in Hc. destruct Hc as [_ Hg].
    apply getOrCreateClient_Done_inl in Hg.
    destruct Hg as (_ & resp & -> & Hok & ->).
    apply fire_Done_inv in Hf. destruct Hf as (old & Hold & _).
    rewrite Hold. simpl.
    repeat split.
    exists old, (next_conn w1). do 2 eexists. repeat split.
    unfold isERR in Hok. destruct (Status resp); congruence.
Qed.

(** [alice]'s connection is severed and the server is healthy: [PING]
    comes back [OK] from connection 1 after one dial and one handshake. *)
Lemma Fire_retries_after_reconnect_witness :
  exists result w1 c' w2,
    fire netSevered PING (conn alice) aliceWorld = Done result w1 /\
    checkAndReconnect netSevered 1 (Message result) alice w1
    = Done (true, c') w2 /\
    Fire netSevered 2 PING alice aliceWorld = Fire netSevered 1 PING c' w2 /\
    Fire netSevered 1 PING c' w2 =
    Done (okResult "OK", c')
         (emit (EvRead 1 (inl (okResult "OK")))
               (emit (EvWrite 1 PING None) w2)) /\
    countEv isDial (log w2) = S (countEv isDial (log w1)) /\
    countEv isHandshake (log w2) = S (countEv isHandshake (log w1)).
Proof.
  do 4 eexists. split; [reflexivity|]. split; [reflexivity|].
  pose proof (Fire_retries_after_reconnect netSevered 1 PING alice aliceWorld
                _ _ _ _ eq_refl eq_refl (or_introl eq_refl) eq_refl) as H.
  destruct H as (H1 & H2 & H3 & _).
  split; [exact H1|]. split; [reflexivity|]. split; [exact H2|exact H3].
Defined.

(** When the exchange of [Fire] gives a recoverable fault and the reconnect
    attempt returns an error ([NewClient] could not dial, or the answer to
    its handshake is an [ERR] that is not itself a recoverable fault),
    [Fire] returns the Result of the fault and the client unchanged; after
    the attempt it only prints the failure: there is no retry. *)
Theorem Fire_returns_fault_when_reconnect_fails net n cmd c w result w1 e w2 :
  fire net cmd (conn c) w = Done result w1 ->
  Status result = Status_ERR ->
  Message result = io_EOF \/ Contains (Message result) syscall_EPIPE = true ->
  getOrCreateClient net n (Some c) (emit (EvPrintln "reconnecting ...") w1)
  = Done (inr e) w2 ->
  Fire net (S n) cmd c w
  = Done (result, c) (emit (EvPrintln ("failed to reconnect. error: " ++ e)) w2).
Proof.
  intros Hf He Hr Hg. apply recoverable_spec in Hr.
  rewrite (Fire_unfold_ERR _ _ _ _ _ _ _ Hf He).
  rewrite (checkAndReconnect_failed _ _ _ _ _ _ _ Hr Hg). reflexivity.
Qed.

(** [alice]'s connection is severed and the server is down: the caller
    gets the end-of-stream Result and no connection was added. *)
Lemma Fire_returns_fault_when_reconnect_fails_witness :
  exists w',
    Fire netDown 2 PING alice aliceWorld = Done (errResult io_EOF, alice) w' /\
    countEv isDialOK (log w') = countEv isDialOK (log aliceWorld).
Proof.
  eexists. split.
  - eapply (Fire_returns_fault_when_reconnect_fails netDown 1 PING alice
              aliceWorld (errResult io_EOF));
      [reflexivity | reflexivity | left; reflexivity | reflexivity].
  - reflexivity.
Defined.

(** The same when the server is up but rejects the new handshake. *)
Example Fire_handshake_rejected_after_fault :
  exists w',
    Fire netReject 2 PING alice aliceWorld = Done (errResult io_EOF, alice) w'.
Proof. eexists. reflexivity. Qed.

(** ** Why a reconnect attempt fails, and when it blocks *)

Lemma getOrCreateClient_dial_fails net n c w e :
  mu w = false ->
  net_dial net (EvLock :: log w) (host c) (port c) = Some e ->
  getOrCreateClient net n (Some c) w
  = Done (inr e)
         (unlock (emit (EvDial RCommand (host c) (port c) (inr e)) (locked w))).
Proof.
  intros Hmu Hd.
  unfold getOrCreateClient, getOrCreateClient_. unfold bind at 1.
  unfold Lock. rewrite Hmu. unfold deferUnlock, NewClient_.
  unfold bind at 1. unfold bind at 1. unfold newConn. simpl. rewrite Hd.
  reflexivity.
Qed.

Lemma getOrCreateClient_unfold net n c w :
  mu w = false ->
  net_dial net (EvLock :: log w) (host c) (port c) = None ->
  getOrCreateClient net n (Some c) w =
  match Fire net n (handshake (id (reconnectClient net c w)) "command")
             (reconnectClient net c w) (beforeHandshake net c w) with
  | Done (resp, nc) w' =>
      if isERR resp then Done (inr (handshakeError resp)) (unlock w')
      else Done (inl nc)
                (unlock match conn c with
                        | Some co => emit (EvClose co) w'
                        | None => w'
                        end)
  | Panic msg w' => Panic msg (unlock w')
  | Hang w' => Hang w'
  | OutOfFuel => OutOfFuel
  end.
Proof.
  intros Hmu Hd.
  unfold getOrCreateClient, getOrCreateClient_. unfold bind at 1.
  unfold Lock. rewrite Hmu. unfold deferUnlock, NewClient_.
  unfold bind at 2. unfold bind at 1. unfold newConn. simpl. rewrite Hd.
  unfold bind at 1. unfold freshClient. simpl.
  unfold bind at 2. unfold uuid_New. simpl. unfold ret at 1. unfold bind.
  unfold reconnectClient, beforeHandshake, dialled, locked, setID, emit.
  simpl.
  match goal with
  | |- context [Fire net n ?a ?b ?x] =>
      destruct (Fire net n a b x) as [[resp nc] w'| | |]; try reflexivity
  end.
  destruct (isERR resp); [reflexivity|].
  destruct (conn c); reflexivity.
Qed.

Lemma beforeHandshake_mu net c w : mu (beforeHandshake net c w) = true.
Proof. reflexivity. Qed.

Lemma getOrCreateClient_handshake_rejected net n c w resp w3 :
  mu w = false ->
  net_dial net (EvLock :: log w) (host c) (port c) = None ->
  fire net (handshake (id (reconnectClient net c w)) "command")
       (conn (reconnectClient net c w)) (beforeHandshake net c w)
  = Done resp w3 ->
  Status resp = Status_ERR ->
  recoverable (Message resp) = false ->
  getOrCreateClient net (S n) (Some c) w
  = Done (inr (handshakeError resp)) (unlock w3).
Proof.
  intros Hmu Hd Hf He Hr.
  rewrite getOrCreateClient_unfold by assumption.
  rewrite (Fire_unfold_ERR _ _ _ _ _ _ _ Hf He).
  rewrite checkAndReconnect_not_recoverable by assumption.
  apply isERR_spec in He. rewrite He. reflexivity.
Qed.

Lemma getOrCreateClient_handshake_fault_blocks net n c w resp w3 :
  mu w = false ->
  net_dial net (EvLock :: log w) (host c) (port c) = None ->
  fire net (handshake (id (reconnectClient net c w)) "command")
       (conn (reconnectClient net c w)) (beforeHandshake net c w)
  = Done resp w3 ->
  Status resp = Status_ERR ->
  recoverable (Message resp) = true ->
  getOrCreateClient net (S n) (Some c) w
  = Hang (emit (EvPrintln "reconnecting ...") w3).
Proof.
  intros Hmu Hd Hf He Hr.
  rewrite getOrCreateClient_unfold by assumption.
  rewrite (Fire_unfold_ERR _ _ _ _ _ _ _ Hf He).
  unfold checkAndReconnect, checkAndReconnect_. rewrite Hr.
  unfold bind at 1. unfold Println. unfold bind at 1.
  rewrite getOrCreateClient_locked; [reflexivity|].
  simpl. destruct (fire_mu _ _ _ _ _ _ Hf) as [-> _]. reflexivity.
Qed.

(** When every new connection is severed at once, the handshake inside the
    reconnect meets the end of the stream, reconnects in its turn and blocks
    on [mu], which the outer reconnect holds: [Fire] does not return. *)
Example Fire_blocks_when_new_connection_is_severed :
  exists w', Fire netFlapping 3 PING alice aliceWorld = Hang w' /\ mu w' = true.
Proof. eexists. split; reflexivity. Qed.

(** ** Client creation *)

(** C5, as the code has it.  When the dial of [NewClient] succeeds and the
    [Fire] of the command [HANDSHAKE] with arguments [[identity; "command"]]
    returns, creation fails if and only if the Result has status [ERR]; the
    error is then the text ["could not complete the handshake: "] followed
    by the message of the Result, and on [OK] the client is returned. *)
Theorem NewClient_handshake_gating net n h p opts w k w1 client w2
        resp client' w3 :
  newConn net RCommand h p w = Done (inl k) w1 ->
  freshClient net k h p opts w1 = Done client w2 ->
  Fire net n (handshake (id client) "command") client w2
  = Done (resp, client') w3 ->
  exists r,
    NewClient net n h p opts w = Done r w3 /\
    ((exists e, r = inr e) <-> Status resp = Status_ERR) /\
    (Status resp = Status_ERR ->
     r = inr ("could not complete the handshake: " ++ Message resp)%string) /\
    (Status resp = Status_OK -> r = inl client').
Proof.
  intros Hd Hc Hf.
  unfold NewClient, NewClient_. unfold bind at 1. rewrite Hd.
  unfold bind at 1. rewrite Hc. unfold bind. rewrite Hf.
  unfold isERR, ret, handshakeError. destruct (Status resp).
  - exists (inl client'). repeat split; try congruence.
    intros [e He]. discriminate.
  - eexists. repeat split; try congruence. eexists; reflexivity.
Qed.

(** The server rejects the handshake of ["alice"]: creation fails with the
    wrapped message. *)
Lemma NewClient_handshake_gating_witness :
  exists w3,
    NewClient netBadHandshake 1 "localhost" 7379 [WithID "alice"] initWorld
    = Done (inr "could not complete the handshake: ERR bad identity") w3.
Proof.
  destruct (NewClient_handshake_gating netBadHandshake 1 "localhost" 7379
              [WithID "alice"] initWorld 0 _ alice _
              (errResult "ERR bad identity") alice _
              eq_refl eq_refl eq_refl) as (r & Hr & _ & He & _).
  eexists. rewrite Hr, (He eq_refl). reflexivity.
Defined.

(** And on an [OK] handshake the client is returned. *)
Example NewClient_handshake_accepted :
  exists w3,
    NewClient netHealthy 1 "localhost" 7379 [] initWorld
    = Done (inl (mkClient "6ba7b810-9dad-41d1-80b4-00c04fd430c8" (Some 0)
                          None None "localhost" 7379)) w3.
Proof. eexists. reflexivity. Qed.

(** The error of a failed creation is not the message of the handshake
    Result: the message is only its tail. *)
Lemma NewClient_error_differs_from_message :
  exists w3 w4,
    Fire netBadHandshake 1 (handshake "alice" "command") alice
         (dialled RCommand "localhost" 7379 initWorld)
    = Done (errResult "ERR bad identity", alice) w3 /\
    NewClient netBadHandshake 1 "localhost" 7379 [WithID "alice"] initWorld
    = Done (inr "could not complete the handshake: ERR bad identity") w4 /\
    "could not complete the handshake: ERR bad identity"
    <> Message (errResult "ERR bad identity").
Proof.
  do 2 eexists. split; [reflexivity|]. split; [reflexivity|]. discriminate.
Qed.

Lemma remove_length_le (x : nat) l :
  List.length (remove Nat.eq_dec x l) <= List.length l.
Proof.
  induction l as [|y l IH]; simpl; [lia|].
  destruct (Nat.eq_dec x y); simpl; lia.
Qed.

(** ** Connections open during a reconnect *)

(** In the run where the connection of [alice] is severed and the server is
    healthy, the connection dialled by the reconnect and the one it
    supersedes are both open between the dial and the close. *)
Lemma reconnect_two_command_conns_open :
  exists r w,
    Fire netSevered 2 PING alice aliceWorld = Done r w /\
    ~ oneConnPerRole (log w).
Proof.
  do 2 eexists. split; [reflexivity|].
  intros H.
  specialize (H (EvDial RCommand "localhost" 7379 (inl 1) :: EvLock
                 :: EvPrintln "reconnecting ..." :: EvRead 0 (inr io_EOF)
                 :: EvWrite 0 PING None :: log aliceWorld) RCommand).
  assert (Hi : instantOf
                 (EvDial RCommand "localhost" 7379 (inl 1) :: EvLock
                  :: EvPrintln "reconnecting ..." :: EvRead 0 (inr io_EOF)
                  :: EvWrite 0 PING None :: log aliceWorld)
                 (log (mkWorld
                         (EvRead 1 (inl (okResult "OK"))
                          :: EvWrite 1 PING None
                          :: reconnectCycle (Some 0) "localhost" 7379 1
                               "6ba7b810-9dad-41d1-80b4-00c04fd430c8"
                               (okResult "OK")
                               (EvPrintln "reconnecting ..."
                                :: EvRead 0 (inr io_EOF)
                                :: EvWrite 0 PING None :: log aliceWorld))
                         false 2 0))).
  { eexists
      [_; _; _; _; _; _; _].
    reflexivity. }
  apply H in Hi. simpl in Hi. lia.
Qed.

(** C6, as the code has it.  A reconnect that succeeds dials and handshakes
    the replacement while the superseded connection is still open, then
    closes the superseded connection, and returns the client that holds the
    replacement only after that.  So at every instant of the reconnect the
    command role has at most one open connection more than before it, and
    at its end the superseded connection is closed: a client that had one
    open command connection has one again, the replacement. *)
Theorem reconnect_closes_old_before_install net n err c w c' w' old :
  checkAndReconnect net n err c w = Done (true, c') w' ->
  conn c = Some old ->
  exists u resp,
    let k := next_conn w in
    conn c' = Some k /\
    log w' = reconnectCycle (Some old) (host c) (port c) k u resp
               (EvPrintln "reconnecting ..." :: log w) /\
    (forall t, instantOf t (log w') -> instantOf (log w) t ->
       List.length (openConns RCommand t)
       <= S (List.length (openConns RCommand (log w)))) /\
    openConns RCommand (log w')
    = remove Nat.eq_dec old (k :: openConns RCommand (log w)) /\
    (openConns RCommand (log w) = [old] -> old < k ->
     openConns RCommand (log w') = [k]).
Proof.
  intros Hc Hold.
  apply checkAndReconnect_true_inv in Hc. destruct Hc as [_ Hg].
  apply getOrCreateClient_Done_inl in Hg.
  destruct Hg as (_ & resp & -> & _ & ->). rewrite Hold. simpl.
  do 2 eexists. split; [reflexivity|]. split; [reflexivity|].
  split; [|split].
  - intros t [l1 H1] [l2 H2]. subst t.
    unfold reconnectCycle in H1. simpl in H1.
    change (?a :: ?b :: ?c :: ?d :: ?e :: ?f :: ?g :: ?h :: log w)
      with ([a; b; c; d; e; f; g; h] ++ log w) in H1.
    rewrite app_assoc in H1. apply app_inv_tail in H1.
    pose proof (remove_length_le old
                  (next_conn w :: openConns RCommand (log w))) as Hrm.
    cbn [List.length] in Hrm.
    repeat (destruct l1 as [|? l1];
            [simpl in H1; subst l2; cbn [openConns app List.length];
             first [exact Hrm | lia]
            | simpl in H1; injection H1 as <- H1]).
    destruct l1; [|discriminate]. destruct l2; [|discriminate].
    cbn [openConns app List.length]. lia.
  - reflexivity.
  - intros Ho Hlt. rewrite Ho. simpl.
    destruct (Nat.eq_dec old (next_conn w)); [lia|].
    destruct (Nat.eq_dec old old); [reflexivity|congruence].
Qed.

(** The reconnect of [alice] on a healthy server: connection 0 was the one
    open command connection before, connection 1 is afterwards. *)
Lemma reconnect_closes_old_before_install_witness :
  exists c' w',
    checkAndReconnect netSevered 1 io_EOF alice aliceWorld = Done (true, c') w' /\
    conn c' = Some 1 /\
    openConns RCommand (log aliceWorld) = [0] /\
    openConns RCommand (log w') = [1].
Proof.
  do 2 eexists. split; [reflexivity|].
  destruct (reconnect_closes_old_before_install netSevered 1 io_EOF alice
              aliceWorld _ _ 0 eq_refl eq_refl)
    as (u & resp & Hk & _ & _ & _ & Hone).
  split; [exact Hk|]. split; [reflexivity|].
  apply Hone; [reflexivity | simpl; lia].
Defined.

(** ** watch *)

Lemma watch_never_returns net n c w a w' : watch net n c w <> Done a w'.
Proof.
  revert c w. induction n as [|n IH]; intros c w; simpl; [discriminate|].
  unfold bind at 1.
  destruct (ironhawk_Read net (watchConn c) w) as [[resp|err] w1| | |];
    try discriminate.
  - unfold bind. unfold send.
    destruct (watchCh c); [apply IH | discriminate].
  - unfold bind.
    destruct (checkAndReconnect net n err c w1) as [[[|] c1] w2| | |];
      try discriminate.
    simpl. unfold send. destruct (watchCh c1); [apply IH | discriminate].
Qed.

(** In an iteration of the loop of the background task whose receive
    fails, if the error is not recoverable, or it is and the reconnect
    attempt returns an error, the task panics with the receive error, which
    ends the process.  And [watch] has no way to return: whatever the bound
    on its iterations, it never ends in [Done]. *)
Theorem watch_panics_on_fatal_fault net n c w err w1 :
  ironhawk_Read net (watchConn c) w = Done (inr err) w1 ->
  (recoverable err = false \/
   recoverable err = true /\
   exists e w2,
     getOrCreateClient net n (Some c) (emit (EvPrintln "reconnecting ...") w1)
     = Done (inr e) w2) ->
  (exists w', watch net (S n) c w = Panic err w') /\
  (forall m c0 w0 a w'', watch net m c0 w0 <> Done a w'').
Proof.
  intros Hr Hcause. split; [|intros; apply watch_never_returns].
  simpl. unfold bind at 1. rewrite Hr. unfold bind.
  destruct Hcause as [Hn | (Hrec & e & w2 & Hg)].
  - rewrite checkAndReconnect_not_recoverable by assumption.
    simpl. eexists; reflexivity.
  - rewrite (checkAndReconnect_failed _ _ _ _ _ _ _ Hrec Hg).
    simpl. eexists; reflexivity.
Qed.

(** The watch connection of [alice] meets the end of the stream and the
    server cannot be dialled: the task panics with the end-of-stream error. *)
Lemma watch_panics_on_fatal_fault_witness :
  exists w',
    watch (netWatchLost io_EOF) 2 aliceWatching aliceWatchWorld
    = Panic io_EOF w'.
Proof.
  refine (proj1 (watch_panics_on_fatal_fault (netWatchLost io_EOF) 1
                   aliceWatching aliceWatchWorld io_EOF _ eq_refl _)).
  right. split; [reflexivity|]. do 2 eexists. reflexivity.
Defined.

(** A receive error that is not recoverable. *)
Example watch_panics_on_connection_reset :
  exists w',
    watch (netWatchLost "read tcp: connection reset by peer") 1
          aliceWatching aliceWatchWorld
    = Panic "read tcp: connection reset by peer" w'.
Proof. eexists. reflexivity. Qed.

(** ** The concrete runs start from reachable states *)

Example NewClient_alice :
  NewClient netSevered 1 "localhost" 7379 [WithID "alice"] initWorld
  = Done (inl alice) aliceWorld.
Proof. reflexivity. Qed.

Example WatchCh_alice :
  WatchCh netSevered alice aliceWorld
  = Done ((Some 0, None), aliceWatching) aliceWatchWorld.
Proof. reflexivity. Qed.

(** ** WatchCh *)

Lemma WatchCh_established net c w q :
  watchCh c = Some q -> WatchCh net c w = Done ((Some q, None), c) w.
Proof. intros H. unfold WatchCh. rewrite H. reflexivity. Qed.

Lemma WatchCh_times_established net k c w q :
  watchCh c = Some q ->
  WatchCh_times net k c w = Done (repeat (Some q, None) k, c) w.
Proof.
  intros H. induction k as [|k IH]; simpl; [reflexivity|].
  unfold bind at 1. rewrite (WatchCh_established _ _ _ _ H).
  simpl. unfold bind at 1. rewrite IH. reflexivity.
Qed.

(** C10.  When a call of [WatchCh] fails (the watch connection cannot be
    dialled, or its handshake comes back [ERR]), the client had no queue
    before, the field [watchCh] holds the newly made queue afterwards, and
    every later call, however many, returns that queue and no error and
    leaves the client and the world as they are: nothing is dialled, no
    handshake is sent and no background task is started. *)
Theorem WatchCh_after_failed_first_call net c w err c' w' k :
  WatchCh net c w = Done ((None, Some err), c') w' ->
  watchCh c = None /\
  watchCh c' = Some (next_chan w) /\
  WatchCh_times net k c' w'
  = Done (repeat (Some (next_chan w), None) k, c') w'.
Proof.
  intros H.
  assert (Hc : watchCh c = None /\ watchCh c' = Some (next_chan w)).
  { unfold WatchCh in H. destruct (watchCh c) as [q|]; [discriminate|].
    split; [reflexivity|].
    unfold bind at 1 in H. unfold makeChan in H.
    unfold bind at 1 in H. unfold newConn in H. simpl in H.
    destruct (net_dial net (EvMakeChan (next_chan w) :: log w) (host c)
                (port c)).
    - inversion H; subst. reflexivity.
    - simpl in H. unfold bind at 1 in H.
      match type of H with
      | context [fire net ?a ?b ?x] =>
          destruct (fire net a b x) as [resp w1| | |]; try discriminate
      end.
      destruct (isERR resp); [|discriminate].
      inversion H; subst. reflexivity. }
  destruct Hc as [Hc Hc']. repeat split; try assumption.
  apply WatchCh_times_established. assumption.
Qed.

(** The server cannot be dialled: the first call fails, the three next
    ones return queue 0. *)
Lemma WatchCh_after_failed_first_call_witness :
  exists c' w',
    WatchCh netUnreachable alice aliceWorld
    = Done ((None, Some "dial tcp: connection refused"), c') w' /\
    watchCh c' = Some 0 /\
    WatchCh_times netUnreachable 3 c' w'
    = Done ([(Some 0, None); (Some 0, None); (Some 0, None)], c') w'.
Proof.
  do 2 eexists. split; [cbv; reflexivity|].
  destruct (WatchCh_after_failed_first_call netUnreachable alice aliceWorld
              _ _ _ 3 eq_refl) as (_ & H1 & H2).
  split; [exact H1 | exact H2].
Defined.

(** The same after a handshake that the server rejects. *)
Example WatchCh_after_rejected_handshake :
  exists e c' w',
    WatchCh netBadHandshake alice aliceWorld = Done ((None, Some e), c') w' /\
    WatchCh netBadHandshake c' w' = Done ((Some 0, None), c') w'.
Proof. do 3 eexists. split; cbv; reflexivity. Qed.

(** ** What a reconnect does to the rest of the struct *)

(** C7 on the code.  [alice] establishes her watch queue (queue 0, watch
    connection 1); her command connection is then severed and a [Fire]
    reconnects; the reconnect leaves no queue and no watch connection in the
    struct, and the next [WatchCh] makes a second queue (queue 1) and dials
    a second watch connection (3) while the first (1) is still open. *)
Theorem WatchCh_recreated_after_reconnect :
  exists r c2 w2 c3 w3,
    WatchCh netSevered alice aliceWorld
    = Done ((Some 0, None), aliceWatching) aliceWatchWorld /\
    Fire netSevered 2 PING aliceWatching aliceWatchWorld = Done (r, c2) w2 /\
    watchCh c2 = None /\ watchConn c2 = None /\
    WatchCh netSevered c2 w2 = Done ((Some 1, None), c3) w3 /\
    countEv (isDialOf RWatch) (log aliceWatchWorld) = 1 /\
    countEv (isDialOf RWatch) (log w3) = 2 /\
    openConns RWatch (log w3) = [3; 1].
Proof. do 5 eexists. repeat split; cbv; reflexivity. Qed.

(** The client a reconnect installs carries a generated identifier, and
    neither watch connection nor queue, whatever the old client had. *)
Lemma reconnect_identity_is_generated net n err c w c' w' :
  checkAndReconnect net n err c w = Done (true, c') w' ->
  id c' = net_uuid net (EvDial RCommand (host c) (port c) (inl (next_conn w))
                          :: EvLock :: EvPrintln "reconnecting ..." :: log w) /\
  watchConn c' = None /\ watchCh c' = None.
Proof.
  intros H. apply checkAndReconnect_true_inv in H. destruct H as [_ H].
  apply getOrCreateClient_Done_inl in H.
  destruct H as (_ & resp & -> & _). simpl. auto.
Qed.

(** C1 on the code.  [alice] is created with the identity ["alice"]; her
    connection is severed; the [Fire] that follows reconnects and succeeds,
    and the identity of the client is then the generated identifier of the
    reconnect, not ["alice"]. *)
Theorem reconnect_replaces_identity :
  exists r c' w',
    NewClient netSevered 1 "localhost" 7379 [WithID "alice"] initWorld
    = Done (inl alice) aliceWorld /\
    Fire netSevered 2 PING alice aliceWorld = Done (r, c') w' /\
    Status r = Status_OK /\
    id alice = "alice" /\
    id c' = "6ba7b810-9dad-41d1-80b4-00c04fd430c8" /\
    id c' <> id alice.
Proof. do 3 eexists. repeat split; try (cbv; reflexivity). discriminate. Qed.

(** ** FireString: trimming and splitting *)

Section TrimFront.

Variable sp2 : ascii -> ascii -> bool.
Variable sp3 : ascii -> ascii -> ascii -> bool.

Lemma trimFront_decomp_bounded n :
  forall s, List.length s <= n ->
    exists pre,
      s = pre ++ trimFront sp2 sp3 s /\
      trimFront sp2 sp3 pre = [] /\
      widthFront sp2 sp3 (trimFront sp2 sp3 s) = 0.
Proof.
  induction n as [|n IH]; intros s Hlen.
  - destruct s; [|simpl in Hlen; lia]. exists []. auto.
  - destruct s as [|a s1]; [exists []; auto|].
    simpl in Hlen. cbn [trimFront].
    destruct (asciiSpace a) eqn:Ha.
    { destruct (IH s1 ltac:(lia)) as (pre & Hs & Hp & Hw).
      exists (a :: pre). cbn [trimFront app]. rewrite Ha, <- Hs. auto. }
    destruct s1 as [|b s2].
    { exists []. simpl. rewrite Ha. auto. }
    simpl in Hlen.
    destruct (sp2 a b) eqn:Hb.
    { destruct (IH s2 ltac:(lia)) as (pre & Hs & Hp & Hw).
      exists (a :: b :: pre). cbn [trimFront app]. rewrite Ha, Hb, <- Hs.
      auto. }
    destruct s2 as [|c s3].
    { exists []. simpl. rewrite Ha, Hb. auto. }
    simpl in Hlen.
    destruct (sp3 a b c) eqn:Hc.
    { destruct (IH s3 ltac:(lia)) as (pre & Hs & Hp & Hw).
      exists (a :: b :: c :: pre). cbn [trimFront app].
      rewrite Ha, Hb, Hc, <- Hs. auto. }
    exists []. simpl. rewrite Ha, Hb, Hc. auto.
Qed.

Lemma trimFront_decomp s :
  exists pre,
    s = pre ++ trimFront sp2 sp3 s /\
    trimFront sp2 sp3 pre = [] /\
    widthFront sp2 sp3 (trimFront sp2 sp3 s) = 0.
Proof. apply (trimFront_decomp_bounded (List.length s)). lia. Qed.

End TrimFront.

Lemma spaceWidth_prefix p q : spaceWidth (p ++ q) = 0 -> spaceWidth p = 0.
Proof.
  unfold spaceWidth, widthFront.
  destruct p as [|a [|b [|c p]]]; simpl; try reflexivity.
  - destruct (asciiSpace a); [discriminate|reflexivity].
  - destruct (asciiSpace a); [discriminate|].
    destruct q; [auto|]. destruct (space2 a b); [discriminate|reflexivity].
  - auto.
Qed.

(** [TrimSpace] removes a run of white-space runes at each end and leaves
    none there. *)
Lemma TrimSpace_spec s :
  exists pre post,
    list_ascii_of_string s = pre ++ list_ascii_of_string (TrimSpace s) ++ post /\
    TrimLeftSpace pre = [] /\ TrimRightSpace post = [] /\
    spaceWidth (list_ascii_of_string (TrimSpace s)) = 0 /\
    spaceWidthEnd (list_ascii_of_string (TrimSpace s)) = 0.
Proof.
  unfold TrimSpace. rewrite list_ascii_of_string_of_list_ascii.
  set (L := list_ascii_of_string s).
  destruct (trimFront_decomp space2 space3 L) as (pre & HL & Hpre & Hw).
  fold (TrimLeftSpace L) in HL, Hw. fold (TrimLeftSpace pre) in Hpre.
  fold (spaceWidth (TrimLeftSpace L)) in Hw.
  set (L1 := TrimLeftSpace L) in *.
  destruct (trimFront_decomp (fun a b => space2 b a)
              (fun a b c => space3 c b a) (rev L1)) as (erp & HR & Herp & Hwe).
  assert (H1 : L1 = TrimRightSpace L1 ++ rev erp).
  { unfold TrimRightSpace. rewrite <- rev_app_distr, <- HR, rev_involutive.
    reflexivity. }
  exists pre, (rev erp). repeat split.
  - rewrite <- H1. exact HL.
  - exact Hpre.
  - unfold TrimRightSpace. rewrite rev_involutive, Herp. reflexivity.
  - apply spaceWidth_prefix with (q := rev erp). rewrite <- H1. exact Hw.
  - unfold spaceWidthEnd, TrimRightSpace. rewrite rev_involutive. exact Hwe.
Qed.

Lemma Split_not_nil s sep : Split s sep <> [].
Proof.
  destruct s as [|a s]; simpl; [discriminate|].
  destruct (Ascii.eqb a sep); [discriminate|].
  destruct (Split s sep); discriminate.
Qed.

(** The pieces of [Split], joined by the separator, give the string back. *)
Lemma Join_Split s sep : Join (Split s sep) (String sep EmptyString) = s.
Proof.
  induction s as [|a s IH]; [reflexivity|].
  simpl. destruct (Ascii.eqb a sep) eqn:Ha.
  - apply Ascii.eqb_eq in Ha. subst a.
    destruct (Split s sep) as [|t ts] eqn:Hs;
      [exfalso; eapply Split_not_nil; eassumption|].
    cbn [Join]. simpl. rewrite <- IH. reflexivity.
  - destruct (Split s sep) as [|t ts] eqn:Hs;
      [exfalso; eapply Split_not_nil; eassumption|].
    destruct ts; simpl in *; rewrite <- IH; reflexivity.
Qed.

(** No piece contains the separator. *)
Lemma Split_no_sep s sep :
  Forall (fun t => ~ In sep (list_ascii_of_string t)) (Split s sep).
Proof.
  induction s as [|a s IH]; simpl.
  - constructor; [intros []|constructor].
  - destruct (Ascii.eqb a sep) eqn:Ha.
    + constructor; [intros []|exact IH].
    + apply Ascii.eqb_neq in Ha.
      destruct (Split s sep) as [|t ts] eqn:Hs;
        [exfalso; eapply Split_not_nil; eassumption|].
      inversion IH; subst. constructor; [|assumption].
      simpl. intros [H|H]; [congruence|contradiction].
Qed.

Lemma Split_no_sep_id t sep :
  ~ In sep (list_ascii_of_string t) -> Split t sep = [t].
Proof.
  induction t as [|a t IH]; simpl; [reflexivity|].
  intros H. destruct (Ascii.eqb a sep) eqn:Ha.
  - apply Ascii.eqb_eq in Ha. exfalso. apply H. left. assumption.
  - rewrite IH; [reflexivity|]. intros Hin. apply H. right. assumption.
Qed.

Lemma Split_app_sep t r sep :
  ~ In sep (list_ascii_of_string t) ->
  Split (t ++ String sep r) sep = t :: Split r sep.
Proof.
  induction t as [|a t IH]; simpl.
  - intros _. rewrite Ascii.eqb_refl. reflexivity.
  - intros H. destruct (Ascii.eqb a sep) eqn:Ha.
    + apply Ascii.eqb_eq in Ha. exfalso. apply H. left. assumption.
    + rewrite IH; [reflexivity|]. intros Hin. apply H. right. assumption.
Qed.

(** [Split] undoes [Join] on pieces without the separator: the pieces of
    [Split] are the only ones with the two properties above. *)
Lemma Split_Join ts sep :
  ts <> [] ->
  Forall (fun t => ~ In sep (list_ascii_of_string t)) ts ->
  Split (Join ts (String sep EmptyString)) sep = ts.
Proof.
  induction ts as [|t ts IH]; [congruence|].
  intros _ Hall. inversion Hall as [|? ? Ht Hts]; subst.
  destruct ts as [|t' ts].
  - simpl. apply Split_no_sep_id. assumption.
  - change (Join (t :: t' :: ts) (String sep EmptyString))
      with (t ++ String sep (Join (t' :: ts) (String sep EmptyString)))%string.
    rewrite Split_app_sep by assumption.
    rewrite IH; [reflexivity|discriminate|assumption].
Qed.

(** On a text with two adjacent spaces the pieces of [FireString] are not
    the white-space separated tokens: an empty argument is sent. *)
Lemma FireString_keeps_empty_tokens :
  Fields_spec "SET  k" = ["SET"; "k"] /\
  Split (TrimSpace "SET  k") SP = ["SET"; ""; "k"] /\
  FireString netHealthy 1 "SET  k" alice aliceWorld
  <> FireString_spec netHealthy 1 "SET  k" alice aliceWorld.
Proof.
  split; [reflexivity|]. split; [reflexivity|]. cbv. discriminate.
Qed.

(** C9, as the code has it.  [FireString] removes the white space at both
    ends of the text ([pre] and [post] are runs of white-space runes, and
    what is left neither starts nor ends with one), cuts the rest at every
    space character, takes the first piece as the command and the other
    pieces, in order, as its arguments, and returns what [Fire] returns for
    that command.  The pieces are the only non-empty list of strings without
    a space that, joined by single spaces, give the trimmed text: adjacent
    spaces give empty pieces, and other white space does not separate. *)
Theorem FireString_splits_at_every_space net n s c w :
  exists cmd args pre post,
    list_ascii_of_string s
    = pre ++ list_ascii_of_string (TrimSpace s) ++ post /\
    TrimLeftSpace pre = [] /\ TrimRightSpace post = [] /\
    spaceWidth (list_ascii_of_string (TrimSpace s)) = 0 /\
    spaceWidthEnd (list_ascii_of_string (TrimSpace s)) = 0 /\
    Join (cmd :: args) " " = TrimSpace s /\
    Forall (fun t => ~ In SP (list_ascii_of_string t)) (cmd :: args) /\
    (forall ts, ts <> [] ->
       Forall (fun t => ~ In SP (list_ascii_of_string t)) ts ->
       Join ts " " = TrimSpace s -> ts = cmd :: args) /\
    FireString net n s c w = Fire net n (mkCommand cmd args) c w.
Proof.
  destruct (TrimSpace_spec s) as (pre & post & H1 & H2 & H3 & H4 & H5).
  destruct (Split (TrimSpace s) SP) as [|cmd args] eqn:Hs;
    [exfalso; eapply Split_not_nil; eassumption|].
  exists cmd, args, pre, post. repeat split; try assumption.
  - rewrite <- Hs. apply (Join_Split (TrimSpace s) SP).
  - rewrite <- Hs. apply Split_no_sep.
  - intros ts Hne Hall Hj. rewrite <- Hs, <- Hj.
    symmetry. apply (Split_Join ts SP); assumption.
  - unfold FireString. rewrite Hs. reflexivity.
Qed.

(** * Beyond the claims *)

(** ** How a [Fire] that returns went *)

(** A reconnect attempt that returns an error found [mu] free and either
    could not dial, or dialled and got an [ERR] answer to its handshake
    that is not a recoverable fault. *)
Lemma getOrCreateClient_Done_inr net n c w e w' :
  getOrCreateClient net n (Some c) w = Done (inr e) w' ->
  mu w = false /\
  ((net_dial net (EvLock :: log w) (host c) (port c) = Some e /\
    w' = unlock (emit (EvDial RCommand (host c) (port c) (inr e)) (locked w)))
   \/
   (net_dial net (EvLock :: log w) (host c) (port c) = None /\
    exists resp w3,
      fire net (handshake (id (reconnectClient net c w)) "command")
           (conn (reconnectClient net c w)) (beforeHandshake net c w)
      = Done resp w3 /\
      isERR resp = true /\ e = handshakeError resp /\ w' = unlock w3)).
Proof.
  intros H.
  assert (Hmu : mu w = false).
  { destruct (mu w) eqn:Hmu; [|reflexivity].
    unfold getOrCreateClient in H.
    rewrite getOrCreateClient_locked in H by assumption. discriminate. }
  split; [assumption|].
  destruct (net_dial net (EvLock :: log w) (host c) (port c)) as [e'|] eqn:Hd.
  - left. rewrite (getOrCreateClient_dial_fails _ _ _ _ _ Hmu Hd) in H.
    inversion H; subst. auto.
  - right. split; [reflexivity|].
    rewrite getOrCreateClient_unfold in H by assumption.
    destruct (Fire net n (handshake (id (reconnectClient net c w)) "command")
                (reconnectClient net c w) (beforeHandshake net c w))
      as [[resp nc] w3| | |] eqn:HF; try discriminate.
    apply Fire_locked in HF; [|reflexivity].
    destruct HF as (Hf & -> & _).
    destruct (isERR resp) eqn:He; [|discriminate].
    inversion H; subst. exists resp, w3. auto.
Qed.

(** The four ways in which [Fire] returns. *)
Lemma Fire_Done_inv net n cmd c w r c' w' :
  Fire net n cmd c w = Done (r, c') w' ->
  exists m result w1,
    n = S m /\ fire net cmd (conn c) w = Done result w1 /\
    ((isERR result = false /\ r = result /\ c' = c /\ w' = w1)
     \/ (isERR result = true /\ recoverable (Message result) = false /\
         r = result /\ c' = c /\ w' = w1)
     \/ (isERR result = true /\ recoverable (Message result) = true /\
         exists e w2,
           getOrCreateClient net m (Some c)
             (emit (EvPrintln "reconnecting ...") w1) = Done (inr e) w2 /\
           r = result /\ c' = c /\
           w' = emit (EvPrintln ("failed to reconnect. error: " ++ e)) w2)
     \/ (isERR result = true /\ recoverable (Message result) = true /\
         exists nc w2,
           getOrCreateClient net m (Some c)
             (emit (EvPrintln "reconnecting ...") w1) = Done (inl nc) w2 /\
           Fire net m cmd nc w2 = Done (r, c') w')).
Proof.
  destruct n as [|m]; simpl; [discriminate|].
  unfold bind at 1.
  destruct (fire net cmd (conn c) w) as [result w1| | |] eqn:Hf;
    try discriminate.
  intros H. exists m, result, w1. split; [reflexivity|].
  split; [reflexivity|].
  destruct (isERR result) eqn:He.
  - right. unfold bind at 1 in H.
    unfold checkAndReconnect_ in H.
    destruct (recoverable (Message result)) eqn:Hr.
    + right. unfold bind at 1 in H. unfold Println in H.
      unfold bind at 1 in H.
      fold (getOrCreateClient net m) in H.
      destruct (getOrCreateClient net m (Some c)
                  (emit (EvPrintln "reconnecting ...") w1))
        as [[nc|e] w2| | |] eqn:Hg; try discriminate.
      * right. repeat split; try reflexivity. exists nc, w2. auto.
      * left. repeat split; try reflexivity. exists e, w2.
        unfold bind, ret in H. simpl in H. inversion H; subst. auto.
    + left. unfold ret in H. inversion H; subst. auto.
  - left. unfold ret in H. inversion H; subst. auto.
Qed.

Lemma fire_count net cmd co w r w' (f : Event -> bool) :
  (forall k c e, f (EvWrite k c e) = false) ->
  (forall k x, f (EvRead k x) = false) ->
  fire net cmd co w = Done r w' ->
  countEv f (log w') = countEv f (log w).
Proof.
  intros Hw Hr H. apply fire_Done_inv in H.
  destruct H as (k & _ & [(e & _ & _ & ->) | (_ & rr & _ & -> & _)]);
    unfold countEv; simpl; rewrite ?Hw, ?Hr; reflexivity.
Qed.

Lemma fire_conn net cmd co w r w' :
  fire net cmd co w = Done r w' -> exists k, co = Some k.
Proof.
  intros H. apply fire_Done_inv in H. destruct H as (k & Hk & _). eauto.
Qed.

(** X1.  A [Fire] that returns leaves [mu] as it found it: every reconnect
    it made, successful or not, released the lock it took. *)
Theorem Fire_leaves_mu_as_found net n cmd c w r c' w' :
  Fire net n cmd c w = Done (r, c') w' -> mu w' = mu w.
Proof.
  revert c w. induction n as [|n IH]; intros c w H; [discriminate|].
  apply Fire_Done_inv in H.
  destruct H as (m & result & w1 & Hm & Hf & Hcases).
  injection Hm as <-.
  destruct (fire_mu _ _ _ _ _ _ Hf) as [Hmu1 _].
  destruct Hcases as [(_ & _ & _ & ->) | [(_ & _ & _ & _ & ->) |
    [(_ & _ & e & w2 & Hg & _ & _ & ->) | (_ & _ & nc & w2 & Hg & HF)]]];
    try assumption.
  - apply getOrCreateClient_Done_inr in Hg.
    destruct Hg as (Hmu & [(_ & ->) | (_ & resp & w3 & _ & _ & _ & ->)]);
      simpl in *; congruence.
  - apply IH in HF. apply getOrCreateClient_Done_inl in Hg.
    destruct Hg as (Hmu & resp & _ & _ & ->). simpl in *. congruence.
Qed.

Lemma Fire_leaves_mu_as_found_witness :
  exists r c' w',
    Fire netSevered 2 PING alice aliceWorld = Done (r, c') w' /\
    mu w' = mu aliceWorld.
Proof.
  do 3 eexists. split; [cbv; reflexivity|].
  apply (Fire_leaves_mu_as_found netSevered 2 PING alice aliceWorld
           _ _ _ eq_refl).
Defined.

(** X2.  A [Fire] that returns leaves the client with the host and port it
    had and with a connection: reconnects dial the same address. *)
Theorem Fire_keeps_endpoint net n cmd c w r c' w' :
  Fire net n cmd c w = Done (r, c') w' ->
  host c' = host c /\ port c' = port c /\ conn c' <> None.
Proof.
  revert c w. induction n as [|n IH]; intros c w H; [discriminate|].
  apply Fire_Done_inv in H.
  destruct H as (m & result & w1 & Hm & Hf & Hcases).
  injection Hm as <-.
  destruct (fire_conn _ _ _ _ _ _ Hf) as [k Hk].
  destruct Hcases as [(_ & _ & -> & _) | [(_ & _ & _ & -> & _) |
    [(_ & _ & e & w2 & _ & _ & -> & _) | (_ & _ & nc & w2 & Hg & HF)]]];
    try (repeat split; congruence).
  apply IH in HF. apply getOrCreateClient_Done_inl in Hg.
  destruct Hg as (_ & resp & -> & _). simpl in HF. exact HF.
Qed.

Lemma Fire_keeps_endpoint_witness :
  exists r c' w',
    Fire netSevered 2 PING alice aliceWorld = Done (r, c') w' /\
    host c' = "localhost" /\ port c' = 7379%Z /\ conn c' <> None.
Proof.
  do 3 eexists. split; [cbv; reflexivity|].
  apply (Fire_keeps_endpoint netSevered 2 PING alice aliceWorld
           _ _ _ eq_refl).
Defined.

(** X3.  When [Fire] returns a Result that is a recoverable fault ([ERR]
    with the end-of-stream or a broken-pipe message), the last thing it did
    was a reconnect attempt that failed: it released [mu] and printed the
    failure. *)
Theorem Fire_fault_surfaces_after_failed_reconnect net n cmd c w r c' w' :
  Fire net n cmd c w = Done (r, c') w' ->
  Status r = Status_ERR ->
  recoverable (Message r) = true ->
  exists e l,
    log w' = EvPrintln ("failed to reconnect. error: " ++ e) :: EvUnlock :: l.
Proof.
  intros H He Hr. apply isERR_spec in He.
  revert c w H. induction n as [|n IH]; intros c w H; [discriminate|].
  apply Fire_Done_inv in H.
  destruct H as (m & result & w1 & Hm & Hf & Hcases).
  injection Hm as <-.
  destruct Hcases as [(Hn & -> & _) | [(_ & Hn & -> & _) |
    [(_ & _ & e & w2 & Hg & _ & _ & ->) | (_ & _ & nc & w2 & Hg & HF)]]];
    try congruence.
  - apply getOrCreateClient_Done_inr in Hg.
    destruct Hg as (_ & [(_ & ->) | (_ & resp & w3 & _ & _ & _ & ->)]);
      simpl; eauto.
  - eapply IH; eassumption.
Qed.

Lemma Fire_fault_surfaces_after_failed_reconnect_witness :
  exists r c' w' e l,
    Fire netDown 2 PING alice aliceWorld = Done (r, c') w' /\
    log w' = EvPrintln ("failed to reconnect. error: " ++ e) :: EvUnlock :: l.
Proof.
  destruct (Fire_fault_surfaces_after_failed_reconnect netDown 2 PING alice
              aliceWorld (errResult io_EOF) alice _ eq_refl eq_refl eq_refl)
    as (e & l & H).
  do 5 eexists. split; [cbv; reflexivity|exact H].
Defined.

(** Successful dials and closes of a [Fire] that returns. *)
Lemma Fire_accounting net n cmd c w r c' w' :
  Fire net n cmd c w = Done (r, c') w' ->
  exists d k,
    countEv isDialOK (log w') = d + countEv isDialOK (log w) /\
    countEv isClose (log w') = k + countEv isClose (log w) /\
    k <= d <= S k /\
    (d = S k -> Status r = Status_ERR /\ recoverable (Message r) = true).
Proof.
  revert c w. induction n as [|n IH]; intros c w H; [discriminate|].
  apply Fire_Done_inv in H.
  destruct H as (m & result & w1 & Hm & Hf & Hcases).
  injection Hm as <-.
  assert (Hd1 : countEv isDialOK (log w1) = countEv isDialOK (log w))
    by (eapply fire_count; [| |eassumption]; reflexivity).
  assert (Hc1 : countEv isClose (log w1) = countEv isClose (log w))
    by (eapply fire_count; [| |eassumption]; reflexivity).
  destruct (fire_conn _ _ _ _ _ _ Hf) as [old Hold].
  destruct Hcases as [(_ & _ & _ & ->) | [(_ & _ & _ & _ & ->) |
    [(He & Hr & e & w2 & Hg & -> & _ & ->) | (_ & _ & nc & w2 & Hg & HF)]]].
  - exists 0, 0. repeat split; try assumption; lia.
  - exists 0, 0. repeat split; try assumption; lia.
  - apply isERR_spec in He.
    apply getOrCreateClient_Done_inr in Hg.
    destruct Hg as (_ & [(_ & ->) | (_ & resp & w3 & Hh & _ & _ & ->)]).
    + exists 0, 0. unfold countEv in *. simpl. repeat split; auto; lia.
    + assert (Hd3 : countEv isDialOK (log w3)
                    = countEv isDialOK (log (beforeHandshake net c
                        (emit (EvPrintln "reconnecting ...") w1))))
        by (eapply fire_count; [| |eassumption]; reflexivity).
      assert (Hc3 : countEv isClose (log w3)
                    = countEv isClose (log (beforeHandshake net c
                        (emit (EvPrintln "reconnecting ...") w1))))
        by (eapply fire_count; [| |eassumption]; reflexivity).
      exists 1, 0. unfold countEv in *. simpl in *.
      rewrite Hd3, Hc3, Hd1, Hc1. repeat split; auto.
  - apply IH in HF. destruct HF as (d & k & Hd & Hc & Hle & Hlast).
    apply getOrCreateClient_Done_inl in Hg.
    destruct Hg as (_ & resp & _ & _ & ->).
    rewrite Hold in Hd, Hc. unfold countEv in *. simpl in *.
    exists (S d), (S k). rewrite Hd, Hc, Hd1, Hc1.
    repeat split; try lia; apply Hlast; lia.
Qed.

Lemma Fire_identity_nonempty net n cmd c w r c' w' :
  (forall l, net_uuid net l <> "") ->
  id c <> "" ->
  Fire net n cmd c w = Done (r, c') w' ->
  id c' <> "".
Proof.
  intros Hu. revert c w. induction n as [|n IH]; intros c w Hid H;
    [discriminate|].
  apply Fire_Done_inv in H.
  destruct H as (m & result & w1 & Hm & Hf & Hcases).
  injection Hm as <-.
  destruct Hcases as [(_ & _ & -> & _) | [(_ & _ & _ & -> & _) |
    [(_ & _ & e & w2 & _ & _ & -> & _) | (_ & _ & nc & w2 & Hg & HF)]]];
    try assumption.
  apply IH in HF; [assumption|].
  apply getOrCreateClient_Done_inl in Hg.
  destruct Hg as (_ & resp & -> & _). simpl. apply Hu.
Qed.

(** X4.  A [Fire] that returns dialled as many connections as it closed,
    or one more; one more only when the Result it returns is a recoverable
    fault. *)
Theorem Fire_dials_and_closes net n cmd c w r c' w' :
  Fire net n cmd c w = Done (r, c') w' ->
  exists d k,
    countEv isDialOK (log w') = d + countEv isDialOK (log w) /\
    countEv isClose (log w') = k + countEv isClose (log w) /\
    k <= d <= S k /\
    (d = S k -> Status r = Status_ERR /\ recoverable (Message r) = true).
Proof. apply Fire_accounting. Qed.

Lemma Fire_dials_and_closes_witness :
  exists r c' w',
    Fire netReject 2 PING alice aliceWorld = Done (r, c') w' /\
    exists d k,
      countEv isDialOK (log w') = d + countEv isDialOK (log aliceWorld) /\
      countEv isClose (log w') = k + countEv isClose (log aliceWorld) /\
      k <= d <= S k /\
      (d = S k -> Status r = Status_ERR /\ recoverable (Message r) = true).
Proof.
  do 3 eexists. split; [cbv; reflexivity|].
  exact (Fire_dials_and_closes netReject 2 PING alice aliceWorld
           _ _ _ eq_refl).
Defined.

(** ** NewClient *)

Lemma freshClient_Done net k h p opts w :
  exists client w',
    freshClient net k h p opts w = Done client w' /\
    mu w' = mu w /\
    countEv isDialOK (log w') = countEv isDialOK (log w) /\
    countEv isClose (log w') = countEv isClose (log w) /\
    ((forall l, net_uuid net l <> "") -> id client <> "").
Proof.
  unfold freshClient.
  destruct (String.eqb (id (fold_left (fun c (opt : option_) => opt c) opts
                      (mkClient "" (Some k) None None h p))) "") eqn:He.
  - do 2 eexists. split; [reflexivity|]. simpl. repeat split.
    intros Hu. apply Hu.
  - do 2 eexists. split; [reflexivity|]. repeat split.
    intros _. apply String.eqb_neq in He. exact He.
Qed.

(** How [NewClient] returns. *)
Lemma NewClient_Done_inv net n h p opts w r w' :
  NewClient net n h p opts w = Done r w' ->
  (exists e, net_dial net (log w) h p = Some e /\ r = inr e /\
             w' = emit (EvDial RCommand h p (inr e)) w)
  \/
  (net_dial net (log w) h p = None /\
   exists client w2 resp c',
     freshClient net (next_conn w) h p opts (dialled RCommand h p w)
     = Done client w2 /\
     Fire net n (handshake (id client) "command") client w2
     = Done (resp, c') w' /\
     r = if isERR resp then inr (handshakeError resp) else inl c').
Proof.
  unfold NewClient, NewClient_. unfold bind at 1. unfold newConn.
  destruct (net_dial net (log w) h p) as [e|].
  - intros H. left. exists e. inversion H; subst. auto.
  - intros H. right. split; [reflexivity|].
    unfold bind at 1 in H.
    destruct (freshClient_Done net (next_conn w) h p opts
                (dialled RCommand h p w)) as (client & w2 & Hc & _).
    rewrite Hc in H. unfold bind in H.
    destruct (Fire net n (handshake (id client) "command") client w2)
      as [[resp c'] w3| | |] eqn:HF; try discriminate.
    exists client, w2, resp, c'. split; [assumption|].
    destruct (isERR resp); inversion H; subst; auto.
Qed.

(** X6.  When the dial fails, [NewClient] returns the error of the dial as
    it is, whatever the options: the failed dial is all that happened, no
    identifier was generated and nothing was sent. *)
Theorem NewClient_dial_failure net n h p opts w e :
  net_dial net (log w) h p = Some e ->
  NewClient net n h p opts w
  = Done (inr e) (emit (EvDial RCommand h p (inr e)) w).
Proof.
  intros H. unfold NewClient, NewClient_. unfold bind at 1. unfold newConn.
  rewrite H. reflexivity.
Qed.

(** X7.  A [NewClient] whose dial succeeded and that returns has dialled
    more connections than it closed: one or two more, and exactly one more
    (the one the client holds) when it returns a client. *)
Theorem NewClient_connection_accounting net n h p opts w r w' :
  net_dial net (log w) h p = None ->
  NewClient net n h p opts w = Done r w' ->
  exists d k,
    countEv isDialOK (log w') = d + countEv isDialOK (log w) /\
    countEv isClose (log w') = k + countEv isClose (log w) /\
    S k <= d <= S (S k) /\
    ((exists c, r = inl c) -> d = S k).
Proof.
  intros Hd H. apply NewClient_Done_inv in H.
  destruct H as [(e & He & _) | (_ & client & w2 & resp & c' & Hc & HF & Hr)];
    [congruence|].
  destruct (freshClient_Done net (next_conn w) h p opts
              (dialled RCommand h p w)) as (cl & w2' & Hc' & _ & Hd2 & Hc2 & _).
  rewrite Hc in Hc'. inversion Hc'; subst cl w2'. clear Hc'.
  apply Fire_accounting in HF.
  destruct HF as (d & k & Hdd & Hkk & Hle & Hlast).
  exists (S d), k. rewrite Hdd, Hkk, Hd2, Hc2.
  unfold countEv. simpl. repeat split; try lia.
  intros [c0 Hc0]. subst r.
  destruct (isERR resp) eqn:He; [discriminate|].
  destruct (Nat.eq_dec d (S k)) as [Hdk|Hdk]; [|lia].
  apply Hlast in Hdk. destruct Hdk as [Hs _].
  apply isERR_spec in Hs. congruence.
Qed.

Lemma NewClient_connection_accounting_witness :
  exists r w',
    NewClient netBadHandshake 1 "localhost" 7379 [] initWorld = Done r w' /\
    exists d k,
      countEv isDialOK (log w') = d + countEv isDialOK (log initWorld) /\
      countEv isClose (log w') = k + countEv isClose (log initWorld) /\
      S k <= d <= S (S k) /\
      ((exists c, r = inl c) -> d = S k).
Proof.
  do 2 eexists. split; [cbv; reflexivity|].
  exact (NewClient_connection_accounting netBadHandshake 1 "localhost" 7379
           [] initWorld _ _ eq_refl eq_refl).
Defined.

(** X8.  When the generator never yields the empty string, the client
    [NewClient] returns has a non-empty identity, whatever the options and
    however many reconnects its handshake went through. *)
Theorem NewClient_identity_nonempty net n h p opts w c w' :
  (forall l, net_uuid net l <> "") ->
  NewClient net n h p opts w = Done (inl c) w' ->
  id c <> "".
Proof.
  intros Hu H. apply NewClient_Done_inv in H.
  destruct H as [(e & _ & He & _) | (_ & client & w2 & resp & c' & Hc & HF & Hr)];
    [discriminate|].
  destruct (freshClient_Done net (next_conn w) h p opts
              (dialled RCommand h p w)) as (cl & w2' & Hc' & _ & _ & _ & Hid).
  rewrite Hc in Hc'. inversion Hc'; subst cl w2'. clear Hc'.
  destruct (isERR resp); [discriminate|]. inversion Hr; subst c'.
  eapply Fire_identity_nonempty; eauto.
Qed.

Lemma NewClient_dial_failure_witness :
  NewClient netUnreachable 0 "localhost" 7379 [] initWorld
  = Done (inr "dial tcp: connection refused")
         (emit (EvDial RCommand "localhost" 7379
                  (inr "dial tcp: connection refused")) initWorld).
Proof.
  apply (NewClient_dial_failure netUnreachable 0 "localhost" 7379 []
           initWorld "dial tcp: connection refused").
  reflexivity.
Defined.

Lemma scriptedNet_uuid_nonempty dials reads l :
  net_uuid (scriptedNet dials reads) l <> "".
Proof. simpl. destruct (countEv isUUID l); discriminate. Qed.

Lemma NewClient_identity_nonempty_witness :
  exists c w',
    NewClient netSeveredAtOnce 3 "localhost" 7379 [] initWorld
    = Done (inl c) w' /\ id c <> "".
Proof.
  do 2 eexists. split; [cbv; reflexivity|].
  apply (NewClient_identity_nonempty netSeveredAtOnce 3 "localhost" 7379 []
           initWorld _ _ (scriptedNet_uuid_nonempty _ _) eq_refl).
Defined.

Lemma fold_WithID ss s c :
  fold_left (fun c (opt : option_) => opt c) (map WithID (ss ++ [s])) c
  = setID s c.
Proof.
  revert c. induction ss as [|s1 ss IH]; intros c; [reflexivity|].
  simpl. rewrite IH. reflexivity.
Qed.

Lemma NewClient_congr net n h p opts opts' w :
  (forall k, freshClient net k h p opts = freshClient net k h p opts') ->
  NewClient net n h p opts w = NewClient net n h p opts' w.
Proof.
  intros H. unfold NewClient, NewClient_. unfold bind at 1.
  unfold bind at 3.
  destruct (newConn net RCommand h p w) as [[k|e] w1| | |]; try reflexivity.
  rewrite H. reflexivity.
Qed.

(** X9.  Of several [WithID] options the last one decides, and [WithID ""]
    counts as no option at all: an identifier is then generated, also when
    an earlier option had given an identity. *)
Theorem NewClient_last_WithID_decides net n h p ss s w :
  NewClient net n h p (map WithID (ss ++ [s])) w
  = NewClient net n h p (if String.eqb s "" then [] else [WithID s]) w.
Proof.
  apply NewClient_congr. intros k. unfold freshClient.
  rewrite fold_WithID. destruct (String.eqb s "") eqn:Hs.
  - apply String.eqb_eq in Hs. subst s. reflexivity.
  - reflexivity.
Qed.

(** X10.  When the server accepts the handshake, a client created with a
    non-empty identity has sent that identity with the role ["command"] on
    the connection it dialled, keeps it, and no identifier was generated. *)
Theorem NewClient_WithID_handshake net n h p ss s w resp w3 :
  s <> "" ->
  net_dial net (log w) h p = None ->
  fire net (handshake s "command") (Some (next_conn w)) (dialled RCommand h p w)
  = Done resp w3 ->
  Status resp = Status_OK ->
  NewClient net (S n) h p (map WithID (ss ++ [s])) w
  = Done (inl (mkClient s (Some (next_conn w)) None None h p)) w3 /\
  countEv isUUID (log w3) = countEv isUUID (log w).
Proof.
  intros Hs Hd Hf Hok.
  rewrite (NewClient_congr _ _ _ _ _ [WithID s])
    by (intros k; unfold freshClient; rewrite fold_WithID; reflexivity).
  apply String.eqb_neq in Hs. split.
  - unfold NewClient, NewClient_. unfold bind at 1. unfold newConn.
    rewrite Hd. unfold bind at 1. unfold freshClient. simpl. rewrite Hs.
    unfold bind, ret. simpl. rewrite Hf.
    destruct resp as [st msg]. simpl in Hok. subst st. reflexivity.
  - erewrite fire_count; [| | |eassumption]; reflexivity.
Qed.

(** ["bob"], then no identity, then ["alice"]: the client is [alice]. *)
Example NewClient_last_WithID_example :
  NewClient netHealthy 1 "localhost" 7379 (map WithID (["bob"; ""] ++ ["alice"]))
            initWorld
  = Done (inl alice) aliceWorld.
Proof.
  reflexivity.
Qed.

Lemma NewClient_WithID_handshake_witness :
  NewClient netHealthy 1 "localhost" 7379 (map WithID (["bob"] ++ ["alice"]))
            initWorld
  = Done (inl alice) aliceWorld /\
  countEv isUUID (log aliceWorld) = countEv isUUID (log initWorld).
Proof.
  apply (NewClient_WithID_handshake netHealthy 0 "localhost" 7379 ["bob"]
           "alice" initWorld (okResult "OK") aliceWorld);
    [discriminate | reflexivity | reflexivity | reflexivity].
Defined.

Lemma checkAndReconnect_hang net n err c w w' :
  recoverable err = true ->
  getOrCreateClient net n (Some c) (emit (EvPrintln "reconnecting ...") w)
  = Hang w' ->
  checkAndReconnect net n err c w = Hang w'.
Proof.
  intros Hr H. unfold checkAndReconnect, checkAndReconnect_. rewrite Hr.
  unfold bind at 1. unfold Println. unfold bind at 1.
  unfold getOrCreateClient in H. rewrite H. reflexivity.
Qed.

(** X5.  When the handshake of a reconnect itself meets a recoverable fault
    on the new connection, [Fire] never returns: the handshake starts a
    second reconnect, which waits for [mu] while the first one holds it. *)
Theorem Fire_blocks_on_fault_during_reconnect net n cmd c w result w1 resp w3 :
  mu w = false ->
  fire net cmd (conn c) w = Done result w1 ->
  Status result = Status_ERR ->
  recoverable (Message result) = true ->
  net_dial net (EvLock :: EvPrintln "reconnecting ..." :: log w1)
           (host c) (port c) = None ->
  fire net
       (handshake
          (id (reconnectClient net c (emit (EvPrintln "reconnecting ...") w1)))
          "command")
       (conn (reconnectClient net c (emit (EvPrintln "reconnecting ...") w1)))
       (beforeHandshake net c (emit (EvPrintln "reconnecting ...") w1))
  = Done resp w3 ->
  Status resp = Status_ERR ->
  recoverable (Message resp) = true ->
  Fire net (S (S n)) cmd c w = Hang (emit (EvPrintln "reconnecting ...") w3) /\
  mu w3 = true.
Proof.
  intros Hmu Hf He Hr Hd Hh Hhe Hhr.
  destruct (fire_mu _ _ _ _ _ _ Hf) as [Hmu1 _]. rewrite Hmu in Hmu1.
  split.
  - rewrite (Fire_unfold_ERR _ _ _ _ _ _ _ Hf He).
    rewrite (checkAndReconnect_hang _ _ _ _ _ _ Hr
               (getOrCreateClient_handshake_fault_blocks net n c
                  (emit (EvPrintln "reconnecting ...") w1) _ _
                  Hmu1 Hd Hh Hhe Hhr)).
    reflexivity.
  - destruct (fire_mu _ _ _ _ _ _ Hh) as [-> _]. reflexivity.
Qed.

Lemma Fire_blocks_on_fault_during_reconnect_witness :
  exists w', Fire netFlapping 2 PING alice aliceWorld = Hang w' /\ mu w' = true.
Proof.
  destruct (Fire_blocks_on_fault_during_reconnect netFlapping 0 PING alice
              aliceWorld (errResult io_EOF) _ (errResult io_EOF) _
              eq_refl eq_refl eq_refl eq_refl eq_refl eq_refl eq_refl eq_refl)
    as [H _].
  eexists. split; [exact H | reflexivity].
Defined.

(** ** The background task *)

Lemma fire_on_conn net cmd k w :
  exists r w', fire net cmd (Some k) w = Done r w'.
Proof.
  unfold fire, bind, ironhawk_Write, ironhawk_Read, ret.
  destruct (net_write net (log w) k cmd); [eauto|].
  simpl. destruct (net_read net (EvWrite k cmd None :: log w) k); eauto.
Qed.

Lemma Fire_unfold_OK net n cmd c w result w1 :
  fire net cmd (conn c) w = Done result w1 ->
  isERR result = false ->
  Fire net (S n) cmd c w = Done (result, c) w1.
Proof.
  intros Hf He. simpl. unfold bind at 1. rewrite Hf, He. reflexivity.
Qed.

Lemma Fire_locked_outcome net n cmd c k w :
  mu w = true -> conn c = Some k ->
  (exists r w', Fire net (S n) cmd c w = Done (r, c) w') \/
  (exists w', Fire net (S n) cmd c w = Hang w').
Proof.
  intros Hmu Hk.
  destruct (fire_on_conn net cmd k w) as (r & w1 & Hf). rewrite <- Hk in Hf.
  destruct (fire_mu _ _ _ _ _ _ Hf) as [Hmu1 _]. rewrite Hmu in Hmu1.
  destruct (isERR r) eqn:He.
  - apply isERR_spec in He.
    rewrite (Fire_unfold_ERR _ _ _ _ _ _ _ Hf He).
    destruct (recoverable (Message r)) eqn:Hr.
    + right. erewrite checkAndReconnect_hang;
        [eauto | assumption | apply getOrCreateClient_locked; assumption].
    + left. rewrite checkAndReconnect_not_recoverable by assumption. eauto.
  - left. rewrite (Fire_unfold_OK _ _ _ _ _ _ _ Hf He). eauto.
Qed.

(** A reconnect returns or blocks on [mu]; it neither panics nor needs
    more than one level of [Fire]. *)
Lemma checkAndReconnect_outcome net n err c w :
  (exists b c' w', checkAndReconnect net (S n) err c w = Done (b, c') w') \/
  (exists w', checkAndReconnect net (S n) err c w = Hang w').
Proof.
  destruct (recoverable err) eqn:Hr.
  2:{ left. rewrite checkAndReconnect_not_recoverable by assumption. eauto. }
  set (w0 := emit (EvPrintln "reconnecting ...") w).
  destruct (mu w0) eqn:Hmu.
  { right. exists w0. apply checkAndReconnect_hang; [assumption|].
    apply getOrCreateClient_locked. exact Hmu. }
  destruct (net_dial net (EvLock :: log w0) (host c) (port c)) as [e|] eqn:Hd.
  { left. do 3 eexists. apply checkAndReconnect_failed; [assumption|].
    apply (getOrCreateClient_dial_fails net (S n) c w0 e Hmu Hd). }
  pose proof (getOrCreateClient_unfold net (S n) c w0 Hmu Hd) as Hu.
  destruct (Fire_locked_outcome net n
              (handshake (id (reconnectClient net c w0)) "command")
              (reconnectClient net c w0) (next_conn w0)
              (beforeHandshake net c w0) eq_refl eq_refl)
    as [(r & w3 & HF) | (w3 & HF)]; rewrite HF in Hu.
  - destruct (isERR r).
    + left. do 3 eexists. apply checkAndReconnect_failed; [assumption|].
      exact Hu.
    + left. exists true. do 2 eexists.
      unfold checkAndReconnect, checkAndReconnect_. rewrite Hr.
      unfold bind at 1. unfold Println. unfold bind at 1.
      fold w0. fold (getOrCreateClient net (S n)). rewrite Hu. reflexivity.
  - right. exists w3. apply checkAndReconnect_hang; [assumption|exact Hu].
Qed.

(** An iteration of the loop that goes round again received a Result and
    forwarded it. *)
Lemma watchIter_Done_inv net n c w c' w' :
  watchIter net n c w = Done c' w' ->
  exists k q r,
    watchConn c = Some k /\ watchCh c = Some q /\
    net_read net (log w) k = inl r /\ c' = c /\
    w' = emit (EvSend q (Some r)) (emit (EvRead k (inl r)) w).
Proof.
  unfold watchIter. unfold bind at 1. unfold ironhawk_Read.
  destruct (watchConn c) as [k|]; [|discriminate].
  destruct (net_read net (log w) k) as [r|err] eqn:Hrd.
  - unfold bind, send, ret. destruct (watchCh c) as [q|]; [|discriminate].
    intros H. inversion H; subst. exists k, q, r. auto.
  - unfold bind at 1.
    destruct (checkAndReconnect net n err c (emit (EvRead k (inr err)) w))
      as [[[|] c1] w2| | |] eqn:Hc; try discriminate.
    apply reconnect_identity_is_generated in Hc.
    destruct Hc as (_ & _ & Hq). simpl. unfold bind, send. rewrite Hq.
    discriminate.
Qed.

Lemma watch_unfold net n c w :
  watch net (S n) c w = (c' <- watchIter net n c ;; watch net n c') w.
Proof.
  simpl. unfold watchIter, bind.
  destruct (ironhawk_Read net (watchConn c) w) as [[r|err] w1| | |];
    try reflexivity.
  - destruct (send (watchCh c) (Some r) w1); reflexivity.
  - destruct (checkAndReconnect net n err c w1) as [[[|] c1] w2| | |];
      try reflexivity.
    simpl. destruct (send (watchCh c1) None w2); reflexivity.
Qed.

Lemma watch_rounds net k : forall n c w c' w',
  watchRounds net n k c w = Done c' w' ->
  watch net n c w = watch net (n - k) c' w'.
Proof.
  induction k as [|k IH]; intros n c w c' w' H.
  - simpl in H. unfold ret in H. inversion H; subst.
    rewrite Nat.sub_0_r. reflexivity.
  - destruct n as [|n]; [discriminate|]. simpl in H.
    unfold bind in H.
    destruct (watchIter net n c w) as [c1 w1| | |] eqn:Hi; try discriminate.
    rewrite watch_unfold. unfold bind. rewrite Hi.
    simpl. apply IH. assumption.
Qed.

Lemma receivedOn_cons k e l :
  receivedOn k (e :: l)
  = receivedOn k l ++ match e with
                      | EvRead k' (inl r) => if Nat.eqb k k' then [r] else []
                      | _ => []
                      end.
Proof.
  unfold receivedOn. simpl. rewrite flat_map_app. simpl.
  rewrite app_nil_r. reflexivity.
Qed.

Lemma sentOn_cons q e l :
  sentOn q (e :: l)
  = sentOn q l ++ match e with
                  | EvSend q' r => if Nat.eqb q q' then [r] else []
                  | _ => []
                  end.
Proof.
  unfold sentOn. simpl. rewrite flat_map_app. simpl.
  rewrite app_nil_r. reflexivity.
Qed.

(** X12.  As long as the loop of [watch] goes round, it has received one
    Result per iteration on the watch connection and sent each one to the
    queue before receiving the next: the queue gets exactly the Results
    received, in the order received, and the client is unchanged. *)
Theorem watch_forwards_in_order net k : forall n c w c' w' kc q,
  watchRounds net n k c w = Done c' w' ->
  watchConn c = Some kc -> watchCh c = Some q ->
  c' = c /\
  watch net n c w = watch net (n - k) c w' /\
  exists rs,
    List.length rs = k /\
    log w' = forwarded kc q rs ++ log w /\
    receivedOn kc (log w') = receivedOn kc (log w) ++ rs /\
    sentOn q (log w') = sentOn q (log w) ++ map Some rs.
Proof.
  induction k as [|k IH]; intros n c w c' w' kc q H Hk Hq.
  - simpl in H. unfold ret in H. inversion H; subst. split; [reflexivity|].
    split; [rewrite Nat.sub_0_r; reflexivity|].
    exists []. simpl. rewrite !app_nil_r. auto.
  - pose proof (watch_rounds _ _ _ _ _ _ _ H) as Hw.
    destruct n as [|n]; [discriminate|]. simpl in H. unfold bind in H.
    destruct (watchIter net n c w) as [c1 w1| | |] eqn:Hi; try discriminate.
    apply watchIter_Done_inv in Hi.
    destruct Hi as (k0 & q0 & r & Hk0 & Hq0 & Hrd & -> & ->).
    rewrite Hk in Hk0. rewrite Hq in Hq0.
    injection Hk0 as <-. injection Hq0 as <-.
    destruct (IH _ _ _ _ _ _ _ H Hk Hq) as (-> & _ & rs & Hlen & Hlog & Hrec & Hsent).
    split; [reflexivity|]. split; [exact Hw|].
    exists (r :: rs). simpl. split; [congruence|].
    split; [|split].
    + rewrite Hlog. simpl. rewrite <- app_assoc. reflexivity.
    + rewrite Hrec. simpl. rewrite !receivedOn_cons.
      rewrite Nat.eqb_refl, app_nil_r, <- app_assoc. reflexivity.
    + rewrite Hsent. simpl. rewrite !sentOn_cons.
      rewrite Nat.eqb_refl, app_nil_r, <- app_assoc. reflexivity.
Qed.

Lemma watch_unfold_fault net n c w err w1 :
  ironhawk_Read net (watchConn c) w = Done (inr err) w1 ->
  watch net (S n) c w =
  match checkAndReconnect net n err c w1 with
  | Done (true, c') w2 => (send (watchCh c') None ;;; watch net n c') w2
  | Done (false, _) w2 => Panic err w2
  | Panic msg w2 => Panic msg w2
  | Hang w2 => Hang w2
  | OutOfFuel => OutOfFuel
  end.
Proof.
  intros Hr. simpl. unfold bind at 1. rewrite Hr. unfold bind at 1.
  destruct (checkAndReconnect net n err c w1) as [[[|] c1] w2| | |];
    reflexivity.
Qed.

(** X13.  The background task never goes on after a receive error: it
    panics with the error or it blocks for ever. *)
Theorem watch_stops_at_receive_fault net n c w err w1 :
  ironhawk_Read net (watchConn c) w = Done (inr err) w1 ->
  (exists w', watch net (S (S n)) c w = Panic err w') \/
  (exists w', watch net (S (S n)) c w = Hang w').
Proof.
  intros Hr. rewrite (watch_unfold_fault _ _ _ _ _ _ Hr).
  destruct (checkAndReconnect_outcome net n err c w1)
    as [([|] & c1 & w2 & Hc) | (w2 & Hc)]; rewrite Hc.
  - right. apply reconnect_identity_is_generated in Hc.
    destruct Hc as (_ & _ & Hq). unfold bind, send. rewrite Hq. eauto.
  - left. eauto.
  - right. eauto.
Qed.

Lemma watch_forwards_in_order_witness :
  exists w',
    watchRounds netWatchFeed 5 3 aliceWatching aliceWatchWorld
    = Done aliceWatching w' /\
    watch netWatchFeed 5 aliceWatching aliceWatchWorld
    = watch netWatchFeed 2 aliceWatching w' /\
    sentOn 0 (log w')
    = [Some (okResult "k1 changed"); Some (okResult "k2 changed");
       Some (okResult "k1 deleted")].
Proof.
  eexists. split; [cbv; reflexivity|].
  destruct (watch_forwards_in_order netWatchFeed 3 5 aliceWatching
              aliceWatchWorld _ _ 1 0 eq_refl eq_refl eq_refl)
    as (_ & Hw & _).
  split; [exact Hw | reflexivity].
Defined.

Lemma watch_stops_at_receive_fault_witness :
  (exists w', watch netWatchSevered 2 aliceWatching aliceWatchWorld
              = Panic io_EOF w') \/
  (exists w', watch netWatchSevered 2 aliceWatching aliceWatchWorld = Hang w').
Proof.
  apply (watch_stops_at_receive_fault netWatchSevered 0 aliceWatching
           aliceWatchWorld io_EOF _ eq_refl).
Defined.

(** The reconnect in the task succeeds, and the task blocks on the queue
    the reconnect has dropped. *)
Example watch_blocks_after_successful_reconnect :
  exists w',
    watch netWatchSevered 2 aliceWatching aliceWatchWorld = Hang w' /\
    mu w' = false /\
    openConns RCommand (log w') = [2] /\ openConns RWatch (log w') = [1].
Proof. eexists. repeat split. Qed.

(** ** WatchCh: the first call *)

(** X14.  A first [WatchCh] that succeeds made a new queue, dialled one
    connection, sent the handshake with the identity of the client and the
    role ["watch"], got an [OK] answer, started one task, and changed only
    the fields [watchConn] and [watchCh]; [mu] is not touched. *)
Theorem WatchCh_first_call_success net c w q c' w' :
  watchCh c = None ->
  WatchCh net c w = Done ((Some q, None), c') w' ->
  exists resp,
    q = next_chan w /\
    c' = mkClient (id c) (conn c) (Some (next_conn w)) (Some q)
                  (host c) (port c) /\
    Status resp = Status_OK /\
    log w' = [EvGoWatch q; EvRead (next_conn w) (inl resp);
              EvWrite (next_conn w) (handshake (id c) "watch") None;
              EvDial RWatch (host c) (port c) (inl (next_conn w));
              EvMakeChan q] ++ log w /\
    mu w' = mu w.
Proof.
  intros Hq H. unfold WatchCh in H. rewrite Hq in H.
  unfold bind at 1 in H. unfold makeChan in H.
  unfold bind at 1 in H. unfold newConn in H. simpl in H.
  destruct (net_dial net (EvMakeChan (next_chan w) :: log w) (host c) (port c));
    [discriminate|].
  simpl in H. unfold bind at 1 in H.
  match type of H with
  | context [fire net ?a ?b ?x] =>
      destruct (fire net a b x) as [resp w1| | |] eqn:Hf; try discriminate
  end.
  destruct (isERR resp) eqn:He; [discriminate|].
  unfold bind, ret in H. simpl in H. inversion H; subst. clear H.
  apply fire_Done_inv in Hf.
  destruct Hf as (k & Hk & [(e & _ & -> & _) | (_ & rr & Hrr & -> & Hresp)]);
    [discriminate|].
  inversion Hk; subst k.
  destruct rr as [resp'|msg]; [|subst resp; discriminate]. subst resp'.
  exists resp. repeat split.
  unfold isERR in He. destruct (Status resp); congruence.
Qed.

Lemma WatchCh_first_call_success_witness :
  exists resp,
    0 = next_chan aliceWorld /\
    aliceWatching
    = mkClient (id alice) (conn alice) (Some (next_conn aliceWorld)) (Some 0)
               (host alice) (port alice) /\
    Status resp = Status_OK /\
    log aliceWatchWorld
    = [EvGoWatch 0; EvRead (next_conn aliceWorld) (inl resp);
       EvWrite (next_conn aliceWorld) (handshake (id alice) "watch") None;
       EvDial RWatch (host alice) (port alice) (inl (next_conn aliceWorld));
       EvMakeChan 0] ++ log aliceWorld /\
    mu aliceWatchWorld = mu aliceWorld.
Proof.
  apply (WatchCh_first_call_success netSevered alice aliceWorld 0
           aliceWatching aliceWatchWorld eq_refl eq_refl).
Defined.

(** X15.  When the answer to the watch handshake has status [ERR], be it
    the end of the stream, [WatchCh] does not reconnect: it returns the
    wrapped message, keeps the dialled connection in the struct and open,
    and starts no task. *)
Theorem WatchCh_handshake_failure net c w resp w3 :
  watchCh c = None ->
  net_dial net (EvMakeChan (next_chan w) :: log w) (host c) (port c) = None ->
  fire net (handshake (id c) "watch") (Some (next_conn w))
       (dialled RWatch (host c) (port c) (chanMade w))
  = Done resp w3 ->
  Status resp = Status_ERR ->
  WatchCh net c w
  = Done ((None, Some ("could not complete the handshake: "
                         ++ Message resp)%string),
          mkClient (id c) (conn c) (Some (next_conn w)) (Some (next_chan w))
                   (host c) (port c)) w3 /\
  openConns RWatch (log w3) = next_conn w :: openConns RWatch (log w) /\
  mu w3 = mu w /\
  countEv isDial (log w3) = S (countEv isDial (log w)) /\
  countEv isGoWatch (log w3) = countEv isGoWatch (log w).
Proof.
  intros Hq Hd Hf He. unfold chanMade in Hf.
  split; [|split; [|split; [|split]]].
  - unfold WatchCh. rewrite Hq.
    unfold bind at 1. unfold makeChan.
    unfold bind at 1. unfold newConn. simpl. rewrite Hd.
    unfold bind at 1. unfold setWatchConn, setWatchCh. simpl.
    rewrite Hf.
    apply isERR_spec in He. rewrite He. reflexivity.
  - apply fire_Done_inv in Hf.
    destruct Hf as (k & _ & [(e & _ & _ & ->) | (_ & rr & _ & -> & _)]);
      reflexivity.
  - destruct (fire_mu _ _ _ _ _ _ Hf) as [-> _]. reflexivity.
  - erewrite fire_count; [| | |eassumption]; reflexivity.
  - erewrite fire_count; [| | |eassumption]; reflexivity.
Qed.

Lemma WatchCh_handshake_failure_witness :
  exists c' w3,
    WatchCh netSeveredAtOnce (mkClient "alice" None None None "localhost" 7379)
            initWorld
    = Done ((None, Some "could not complete the handshake: EOF"), c') w3 /\
    openConns RWatch (log w3) = [0] /\
    countEv isDial (log w3) = 1 /\
    countEv isGoWatch (log w3) = 0.
Proof.
  destruct (WatchCh_handshake_failure netSeveredAtOnce
              (mkClient "alice" None None None "localhost" 7379) initWorld
              (errResult io_EOF) _ eq_refl eq_refl eq_refl eq_refl)
    as (H1 & H2 & _ & H4 & H5).
  do 2 eexists. split; [exact H1|]. split; [exact H2|].
  split; [exact H4 | exact H5].
Defined.

(** ** Close *)

(** X16.  [Close] closes the command connection and nothing else: a watch
    connection that was open stays open. *)
Theorem Close_leaves_watch_connection_open c w k kw :
  conn c = Some k -> watchConn c = Some kw -> kw <> k ->
  In kw (openConns RWatch (log w)) ->
  exists w',
    Client_Close c w = Done tt w' /\
    log w' = EvClose k :: log w /\
    ~ In k (openConns RCommand (log w')) /\
    In kw (openConns RWatch (log w')) /\
    countEv isClose (log w') = S (countEv isClose (log w)).
Proof.
  intros Hk Hkw Hne Hin. unfold Client_Close. rewrite Hk.
  eexists. split; [reflexivity|]. simpl. repeat split.
  - apply remove_In.
  - apply in_in_remove; [exact Hne | exact Hin].
Qed.

Lemma Close_leaves_watch_connection_open_witness :
  exists w',
    Client_Close aliceWatching aliceWatchWorld = Done tt w' /\
    openConns RCommand (log w') = [] /\ openConns RWatch (log w') = [1].
Proof.
  destruct (Close_leaves_watch_connection_open aliceWatching aliceWatchWorld
              0 1 eq_refl eq_refl) as (w' & H & _);
    [discriminate | simpl; auto |].
  exists w'. split; [exact H|].
  cbv in H. inversion H. split; reflexivity.
Defined.

(** ** Which errors are recoverable *)

Lemma prefix_iff a : forall b,
  String.prefix a b = true <-> exists post, b = (a ++ post)%string.
Proof.
  induction a as [|x a IH]; intros b.
  - destruct b; simpl; (split; [intros _; eexists; reflexivity | reflexivity]).
  - destruct b as [|y b]; simpl.
    + split; [discriminate | intros [post H]; discriminate].
    + destruct (ascii_dec x y) as [->|Hxy].
      * rewrite IH. split; intros [post H]; exists post.
        -- rewrite H. reflexivity.
        -- injection H as H. exact H.
      * split; [discriminate|]. intros [post H]. injection H as H1 H2.
        congruence.
Qed.

(** [Contains] decides the occurrence of a substring. *)
Lemma Contains_iff sub : forall s,
  Contains s sub = true <-> exists pre post, s = (pre ++ sub ++ post)%string.
Proof.
  induction s as [|x s IH].
  - cbn [Contains]. rewrite orb_false_r, prefix_iff. split.
    + intros [post H]. exists EmptyString, post. exact H.
    + intros (pre & post & H). destruct pre; [|discriminate].
      exists post. exact H.
  - cbn [Contains]. rewrite orb_true_iff, prefix_iff, IH. split.
    + intros [[post H] | (pre & post & H)].
      * exists EmptyString, post. exact H.
      * exists (String x pre), post. simpl. rewrite H. reflexivity.
    + intros (pre & post & H). destruct pre as [|y pre].
      * left. exists post. exact H.
      * right. simpl in H. injection H as _ H. exists pre, post. exact H.
Qed.

Example unexpected_EOF_is_not_recoverable :
  recoverable "unexpected EOF" = false /\
  recoverable "write tcp 127.0.0.1:7379: write: broken pipe" = true.
Proof. split; reflexivity. Qed.

(** X17.  [checkAndReconnect] takes an error for a recoverable fault exactly
    when its text is ["EOF"] or has ["broken pipe"] somewhere in it. *)
Theorem recoverable_iff err :
  recoverable err = true <->
  err = "EOF" \/ exists pre post, err = (pre ++ "broken pipe" ++ post)%string.
Proof.
  rewrite recoverable_spec. unfold io_EOF, syscall_EPIPE.
  rewrite Contains_iff. reflexivity.
Qed.

(** ** FireString: the edges *)

Lemma widthFront_0_trimFront sp2 sp3 l :
  widthFront sp2 sp3 l = 0 -> trimFront sp2 sp3 l = l.
Proof.
  destruct l as [|a [|b [|c l]]]; simpl; try reflexivity.
  - destruct (asciiSpace a); [discriminate|reflexivity].
  - destruct (asciiSpace a); [discriminate|].
    destruct (sp2 a b); [discriminate|reflexivity].
  - destruct (asciiSpace a); [discriminate|].
    destruct (sp2 a b); [discriminate|].
    destruct (sp3 a b c); [discriminate|reflexivity].
Qed.

Lemma TrimSpace_idempotent s : TrimSpace (TrimSpace s) = TrimSpace s.
Proof.
  destruct (TrimSpace_spec s) as (_ & _ & _ & _ & _ & Hl & Hr).
  unfold TrimSpace at 1.
  unfold TrimLeftSpace, TrimRightSpace.
  unfold spaceWidth in Hl. unfold spaceWidthEnd in Hr.
  rewrite (widthFront_0_trimFront _ _ _ Hl).
  rewrite (widthFront_0_trimFront _ _ _ Hr).
  rewrite rev_involutive. apply string_of_list_ascii_of_string.
Qed.

(** X18.  [FireString] on a text that was trimmed before behaves as on the
    text itself: trimming twice is trimming once. *)
Theorem FireString_of_trimmed net n s c w :
  FireString net n (TrimSpace s) c w = FireString net n s c w.
Proof. unfold FireString. rewrite TrimSpace_idempotent. reflexivity. Qed.

(** X19.  On a text that is empty or white space only, [FireString] does
    not fail on [tokens[0]]: it fires the command with the empty name and
    no arguments. *)
Theorem FireString_blank net n s c w :
  TrimLeftSpace (list_ascii_of_string s) = [] ->
  FireString net n s c w = Fire net n (mkCommand "" []) c w.
Proof.
  intros H. unfold FireString, TrimSpace. rewrite H. reflexivity.
Qed.

Lemma FireString_blank_witness :
  FireString netHealthy 1 "  	 " alice aliceWorld
  = Fire netHealthy 1 (mkCommand "" []) alice aliceWorld.
Proof.
  apply (FireString_blank netHealthy 1 "  	 " alice aliceWorld).
  reflexivity.
Defined.

Lemma Split_length s sep :
  List.length (Split s sep) = S (countByte sep s).
Proof.
  induction s as [|a s IH]; [reflexivity|].
  simpl. destruct (Ascii.eqb a sep).
  - simpl. rewrite IH. reflexivity.
  - destruct (Split s sep) as [|t ts]; simpl in *; [discriminate|].
    exact IH.
Qed.

(** X20.  [FireString] sends as many arguments as there are space
    characters in the trimmed text. *)
Theorem FireString_argument_count net n s c w :
  exists cmd args,
    FireString net n s c w = Fire net n (mkCommand cmd args) c w /\
    List.length args = countByte SP (TrimSpace s).
Proof.
  unfold FireString.
  pose proof (Split_length (TrimSpace s) SP) as H.
  destruct (Split (TrimSpace s) SP) as [|cmd args]; [discriminate|].
  exists cmd, args. split; [reflexivity|]. simpl in H. lia.
Qed.

(** X11.  When the first handshake of [NewClient] meets a recoverable fault
    and the reconnect succeeds, the handshake is sent again on the new
    connection with the identity chosen at creation, while the client that
    is returned carries the identifier the reconnect generated. *)
Theorem NewClient_retried_handshake_identity net n h p s w result w3 nc w4
        resp w5 :
  s <> "" ->
  net_dial net (log w) h p = None ->
  fire net (handshake s "command") (Some (next_conn w)) (dialled RCommand h p w)
  = Done result w3 ->
  Status result = Status_ERR ->
  checkAndReconnect net (S n) (Message result)
    (mkClient s (Some (next_conn w)) None None h p) w3
  = Done (true, nc) w4 ->
  fire net (handshake s "command") (conn nc) w4 = Done resp w5 ->
  Status resp = Status_OK ->
  NewClient net (S (S n)) h p [WithID s] w = Done (inl nc) w5 /\
  id nc = net_uuid net (EvDial RCommand h p (inl (next_conn w3))
                          :: EvLock :: EvPrintln "reconnecting ..." :: log w3) /\
  conn nc = Some (next_conn w3) /\
  log w5 = EvRead (next_conn w3) (inl resp)
           :: EvWrite (next_conn w3) (handshake s "command") None :: log w4.
Proof.
  intros Hs Hd Hf He Hc Hf2 Hok.
  assert (Hnc : id nc = net_uuid net (EvDial RCommand h p (inl (next_conn w3))
                          :: EvLock :: EvPrintln "reconnecting ..." :: log w3)
                /\ conn nc = Some (next_conn w3)).
  { pose proof Hc as Hc'. apply checkAndReconnect_true_inv in Hc'.
    destruct Hc' as [_ Hg]. apply getOrCreateClient_Done_inl in Hg.
    destruct Hg as (_ & r0 & -> & _). simpl. auto. }
  destruct Hnc as [Hid Hconn].
  split; [|split; [exact Hid|split; [exact Hconn|]]].
  - apply String.eqb_neq in Hs.
    unfold NewClient, NewClient_. unfold bind at 1. unfold newConn.
    rewrite Hd. unfold bind at 1. unfold freshClient.
    cbn [fold_left]. unfold WithID, setID.
    cbn [id conn watchConn watchCh host port]. rewrite Hs.
    unfold ret at 1. unfold bind at 1.
    cbn [id].
    rewrite (Fire_unfold_ERR net (S n) (handshake s "command")
               (mkClient s (Some (next_conn w)) None None h p)
               (dialled RCommand h p w) result w3 Hf He).
    rewrite Hc.
    assert (Hn : isERR resp = false)
      by (unfold isERR; rewrite Hok; reflexivity).
    rewrite (Fire_unfold_OK _ _ _ _ _ _ _ Hf2 Hn). rewrite Hn. reflexivity.
  - rewrite Hconn in Hf2. apply fire_Done_inv in Hf2.
    destruct Hf2 as (k & Hk & [(e & _ & -> & _) | (_ & rr & Hrr & -> & Hresp)]);
      [discriminate|].
    inversion Hk; subst k.
    destruct rr as [resp'|msg]; [|subst resp; discriminate]. subst resp'.
    reflexivity.
Qed.

Lemma NewClient_retried_handshake_identity_witness :
  exists nc w5,
    NewClient netSeveredAtOnce 2 "localhost" 7379 [WithID "alice"] initWorld
    = Done (inl nc) w5 /\
    id nc = "6ba7b810-9dad-41d1-80b4-00c04fd430c8" /\
    conn nc = Some 1 /\
    exists w4,
      log w5 = EvRead 1 (inl (okResult "OK"))
               :: EvWrite 1 (handshake "alice" "command") None :: log w4.
Proof.
  edestruct (NewClient_retried_handshake_identity netSeveredAtOnce 0
               "localhost" 7379 "alice" initWorld (errResult io_EOF))
    as (H1 & H2 & H3 & H4);
    [discriminate | reflexivity | cbv; reflexivity | reflexivity
     | cbv; reflexivity | cbv; reflexivity | reflexivity |].
  do 2 eexists. split; [exact H1|]. split; [exact H2|]. split; [exact H3|].
  eexists. exact H4.
Defined.

(** X21.  A reconnect that succeeds closes the command connection it
    replaces and leaves the watch connection open, while the struct no
    longer holds the watch connection nor the queue. *)
Theorem reconnect_orphans_watch_connection net n err c w c' w' old kw :
  checkAndReconnect net n err c w = Done (true, c') w' ->
  conn c = Some old -> watchConn c = Some kw -> kw <> old ->
  In kw (openConns RWatch (log w)) ->
  watchConn c' = None /\ watchCh c' = None /\
  In kw (openConns RWatch (log w')) /\
  ~ In old (openConns RCommand (log w')).
Proof.
  intros Hc Hold Hkw Hne Hin.
  destruct (reconnect_identity_is_generated _ _ _ _ _ _ _ Hc) as (_ & H1 & H2).
  apply checkAndReconnect_true_inv in Hc. destruct Hc as [_ Hg].
  apply getOrCreateClient_Done_inl in Hg.
  destruct Hg as (_ & resp & _ & _ & ->). rewrite Hold.
  unfold reconnectCycle. cbn [log app openConns].
  repeat split; try assumption.
  - apply in_in_remove; assumption.
  - apply remove_In.
Qed.

Lemma reconnect_orphans_watch_connection_witness :
  exists c' w',
    checkAndReconnect netSevered 1 io_EOF aliceWatching aliceWatchWorld
    = Done (true, c') w' /\
    watchConn c' = None /\ watchCh c' = None /\
    In 1 (openConns RWatch (log w')) /\
    ~ In 0 (openConns RCommand (log w')).
Proof.
  do 2 eexists. split; [cbv; reflexivity|].
  apply (reconnect_orphans_watch_connection netSevered 1 io_EOF aliceWatching
           aliceWatchWorld _ _ 0 1 eq_refl eq_refl eq_refl);
    [discriminate | simpl; auto].
Defined.

(** * A reconnect whose handshake meets a fault *)

(** [Fire] meets a recoverable fault, the reconnect dials, and the
    handshake on the new connection meets a recoverable fault too: the
    handshake's own [Fire] reconnects in its turn and waits for [mu]. *)
Lemma Fire_hangs_on_reconnect_handshake_fault net n cmd c w result w1 resp w3 :
  mu w = false ->
  fire net cmd (conn c) w = Done result w1 ->
  Status result = Status_ERR ->
  recoverable (Message result) = true ->
  net_dial net (EvLock :: EvPrintln "reconnecting ..." :: log w1)
           (host c) (port c) = None ->
  fire net
       (handshake
          (id (reconnectClient net c (emit (EvPrintln "reconnecting ...") w1)))
          "command")
       (conn (reconnectClient net c (emit (EvPrintln "reconnecting ...") w1)))
       (beforeHandshake net c (emit (EvPrintln "reconnecting ...") w1))
  = Done resp w3 ->
  Status resp = Status_ERR ->
  recoverable (Message resp) = true ->
  Fire net (S (S n)) cmd c w = Hang (emit (EvPrintln "reconnecting ...") w3).
Proof.
  intros Hmu Hf He Hr Hd Hh Hhe Hhr.
  destruct (fire_mu _ _ _ _ _ _ Hf) as [Hmu1 _]. rewrite Hmu in Hmu1.
  rewrite (Fire_unfold_ERR _ _ _ _ _ _ _ Hf He).
  rewrite (checkAndReconnect_hang _ _ _ _ _ _ Hr
             (getOrCreateClient_handshake_fault_blocks net n c
                (emit (EvPrintln "reconnecting ...") w1) _ _
                Hmu1 Hd Hh Hhe Hhr)).
  reflexivity.
Qed.

(** The same in the background task. *)
Lemma watch_hangs_on_reconnect_handshake_fault net n c w err w1 resp w3 :
  mu w = false ->
  ironhawk_Read net (watchConn c) w = Done (inr err) w1 ->
  recoverable err = true ->
  net_dial net (EvLock :: EvPrintln "reconnecting ..." :: log w1)
           (host c) (port c) = None ->
  fire net
       (handshake
          (id (reconnectClient net c (emit (EvPrintln "reconnecting ...") w1)))
          "command")
       (conn (reconnectClient net c (emit (EvPrintln "reconnecting ...") w1)))
       (beforeHandshake net c (emit (EvPrintln "reconnecting ...") w1))
  = Done resp w3 ->
  Status resp = Status_ERR ->
  recoverable (Message resp) = true ->
  watch net (S (S n)) c w = Hang (emit (EvPrintln "reconnecting ...") w3).
Proof.
  intros Hmu Hrd Hr Hd Hh Hhe Hhr.
  assert (Hmu1 : mu w1 = false).
  { unfold ironhawk_Read in Hrd. destruct (watchConn c); [|discriminate].
    inversion Hrd; subst. exact Hmu. }
  rewrite (watch_unfold_fault _ _ _ _ _ _ Hrd).
  rewrite (checkAndReconnect_hang _ _ _ _ _ _ Hr
             (getOrCreateClient_handshake_fault_blocks net n c
                (emit (EvPrintln "reconnecting ...") w1) _ _
                Hmu1 Hd Hh Hhe Hhr)).
  reflexivity.
Qed.

(** C4 on the code.  [alice] is created on a server that answers her
    handshake; her connection is then severed, and the connection the
    reconnect dials is severed before its handshake is answered.  [Fire]
    meets the end of the stream, the reconnect attempt fails on its
    handshake, and [Fire] does not return the Result of the fault: it
    blocks for ever with [mu] held, whatever the bound, and never returns
    anything. *)
Theorem Fire_blocks_when_reconnect_handshake_faults :
  NewClient netRelapse 1 "localhost" 7379 [WithID "alice"] initWorld
  = Done (inl alice) aliceWorld /\
  exists w1 w3,
    fire netRelapse PING (conn alice) aliceWorld
    = Done (errResult io_EOF) w1 /\
    fire netRelapse
         (handshake
            (id (reconnectClient netRelapse alice
                   (emit (EvPrintln "reconnecting ...") w1))) "command")
         (Some 1)
         (beforeHandshake netRelapse alice
            (emit (EvPrintln "reconnecting ...") w1))
    = Done (errResult io_EOF) w3 /\
    (forall n, Fire netRelapse (S (S n)) PING alice aliceWorld
               = Hang (emit (EvPrintln "reconnecting ...") w3)) /\
    mu w3 = true /\
    (forall n r c' w', Fire netRelapse n PING alice aliceWorld
                       <> Done (r, c') w').
Proof.
  split; [reflexivity|].
  do 2 eexists. split; [cbv; reflexivity|]. split; [cbv; reflexivity|].
  match goal with
  | |- (forall n, _ = Hang ?x) /\ _ =>
      assert (H : forall n, Fire netRelapse (S (S n)) PING alice aliceWorld
                            = Hang x)
  end.
  { intros n.
    eapply (Fire_hangs_on_reconnect_handshake_fault netRelapse n PING alice
              aliceWorld (errResult io_EOF) _ (errResult io_EOF));
      cbv; reflexivity. }
  split; [exact H|]. split; [reflexivity|].
  intros [|[|n]] r c' w'.
  - discriminate.
  - cbv. discriminate.
  - rewrite H. discriminate.
Qed.

(** C8 on the code.  [alice] has a watch queue; her watch connection is
    severed, and the connection the reconnect dials is severed before its
    handshake is answered.  The receive of the task fails, the reconnect
    attempt fails on its handshake, and the task neither panics nor sends
    anything to the queue: it blocks for ever with [mu] held, whatever the
    bound. *)
Theorem watch_blocks_silently_when_reconnect_handshake_faults :
  NewClient netWatchFlap 1 "localhost" 7379 [WithID "alice"] initWorld
  = Done (inl alice) aliceWorld /\
  WatchCh netWatchFlap alice aliceWorld
  = Done ((Some 0, None), aliceWatching) aliceWatchWorld /\
  exists w1 w3,
    ironhawk_Read netWatchFlap (watchConn aliceWatching) aliceWatchWorld
    = Done (inr io_EOF) w1 /\
    fire netWatchFlap
         (handshake
            (id (reconnectClient netWatchFlap aliceWatching
                   (emit (EvPrintln "reconnecting ...") w1))) "command")
         (Some 2)
         (beforeHandshake netWatchFlap aliceWatching
            (emit (EvPrintln "reconnecting ...") w1))
    = Done (errResult io_EOF) w3 /\
    (forall n, watch netWatchFlap (S (S n)) aliceWatching aliceWatchWorld
               = Hang (emit (EvPrintln "reconnecting ...") w3)) /\
    mu w3 = true /\
    sentOn 0 (log w3) = [] /\
    (forall n msg w', watch netWatchFlap n aliceWatching aliceWatchWorld
                      <> Panic msg w').
Proof.
  split; [reflexivity|]. split; [reflexivity|].
  do 2 eexists. split; [cbv; reflexivity|]. split; [cbv; reflexivity|].
  match goal with
  | |- (forall n, _ = Hang ?x) /\ _ =>
      assert (H : forall n,
                 watch netWatchFlap (S (S n)) aliceWatching aliceWatchWorld
                 = Hang x)
  end.
  { intros n.
    eapply (watch_hangs_on_reconnect_handshake_fault netWatchFlap n
              aliceWatching aliceWatchWorld io_EOF _ (errResult io_EOF));
      cbv; reflexivity. }
  split; [exact H|]. split; [reflexivity|]. split; [reflexivity|].
  intros [|[|n]] msg w'.
  - discriminate.
  - cbv. discriminate.
  - rewrite H. discriminate.
Qed.
